(** * End-to-end NDID API test harness: helpers, hooks and callback listeners

    A shallow embedding of the JavaScript sources
    - [src/api/helpers.js] (node address table and the [fetch] wrappers),
    - [tests/index.js] (top-level [before] hook),
    - the [before]/[after] hooks and callback listeners of the test files,
    together with the properties of them that the specification states. *)

From Stdlib Require Import QArith.
From stdpp Require Import gmap strings list fin_maps functions.

#[local] Set Warnings "-register-all".
#[local] Open Scope string_scope.
#[local] Open Scope list_scope.

(** ** JavaScript values *)

Module JS.

(** The values that travel through the harness: what [JSON.parse] produces
    from a callback or response body, plus [undefined], and the built-in
    functions that a read of an inherited member yields, each known by its
    name.  Numbers are rationals, compared up to [Qeq]. *)
Inductive value : Type :=
  | VUndefined
  | VNull
  | VBool (b : bool)
  | VNum (q : Q)
  | VStr (s : string)
  | VArr (xs : list value)
  | VObj (fields : gmap string value)
  | VFun (name : string).

(** An object, as the listeners receive it in [callbackData]. *)
Abbreviation obj := (gmap string value).

(** What a JavaScript function call can end in. *)
Inductive exn : Type :=
  | Error (message : string)
  | TypeError (message : string)
  | AssertionError (message : string)
  | Pending (message : string).

Inductive completion (A : Type) : Type :=
  | Return (a : A)
  | Throw (e : exn).
Arguments Return {A} a.
Arguments Throw {A} e.

(** [ToBoolean]: the test of [if (v)], [!v], [a && b], [a || b]. *)
Definition truthy (v : value) : bool :=
  match v with
  | VUndefined | VNull => false
  | VBool b => b
  | VNum q => negb (Qeq_bool q 0)
  | VStr s => negb (String.eqb s "")
  | VArr _ | VObj _ | VFun _ => true
  end.

(** [a === b].  Primitives compare by type and value.  Objects and arrays
    compare by reference; two values decoded from different message bodies
    are never the same reference, so they are never strictly equal.  A
    built-in function is one object, the same at every read. *)
Definition strict_eq (a b : value) : bool :=
  match a, b with
  | VUndefined, VUndefined => true
  | VNull, VNull => true
  | VBool x, VBool y => Bool.eqb x y
  | VNum x, VNum y => Qeq_bool x y
  | VStr x, VStr y => String.eqb x y
  | VFun x, VFun y => String.eqb x y
  | _, _ => false
  end.

(** [v == null]: true of [null] and [undefined] only. *)
Definition loose_eq_null (v : value) : bool :=
  match v with
  | VUndefined | VNull => true
  | _ => false
  end.

(** [o.k] on an object: a missing property reads as [undefined]. *)
Definition field (o : obj) (k : string) : value := default VUndefined (o !! k).

(** The methods of [Object.prototype], which every plain object (an object
    literal, or what [JSON.parse] builds) inherits. *)
Definition Object_prototype : obj :=
  list_to_map
    [("constructor", VFun "Object");
     ("__defineGetter__", VFun "__defineGetter__");
     ("__defineSetter__", VFun "__defineSetter__");
     ("hasOwnProperty", VFun "hasOwnProperty");
     ("__lookupGetter__", VFun "__lookupGetter__");
     ("__lookupSetter__", VFun "__lookupSetter__");
     ("isPrototypeOf", VFun "isPrototypeOf");
     ("propertyIsEnumerable", VFun "propertyIsEnumerable");
     ("toString", VFun "toString");
     ("valueOf", VFun "valueOf");
     ("toLocaleString", VFun "toLocaleString")].

(** What a plain object without an own property [k] gives for [o[k]]: the
    member of [Object.prototype] of that name, [Object.prototype] itself
    for the accessor [__proto__], and [undefined] for any other name. *)
Definition inherited (k : string) : value :=
  if String.eqb k "__proto__" then VObj Object_prototype
  else field Object_prototype k.

(** [o[k]] on a plain object for a name [k] that the caller chooses: the
    own property where there is one, the inherited member otherwise.  It
    is [field o k] at every name that [Object.prototype] does not have. *)
Definition read (o : obj) (k : string) : value :=
  match o !! k with
  | Some v => v
  | None => inherited k
  end.

(** The message of the [TypeError], in the wording of older V8. *)
Definition cannot_read (k what : string) : string :=
  String.append "Cannot read property '"
    (String.append k (String.append "' of " what)).

(** [v.k] on an arbitrary value, for a name [k] of a data property (not
    [length], an index or a method): reading a property of [undefined] or
    [null] raises a [TypeError]; a primitive or an array has no property of
    that name. *)
Definition get_prop (v : value) (k : string) : completion value :=
  match v with
  | VUndefined => Throw (TypeError (cannot_read k "undefined"))
  | VNull => Throw (TypeError (cannot_read k "null"))
  | VObj o => Return (field o k)
  | VBool _ | VNum _ | VStr _ | VArr _ | VFun _ => Return VUndefined
  end.

(** [v[0]]. *)
Definition get_index0 (v : value) : completion value :=
  match v with
  | VUndefined => Throw (TypeError (cannot_read "0" "undefined"))
  | VNull => Throw (TypeError (cannot_read "0" "null"))
  | VArr xs => Return (default VUndefined (head xs))
  | VStr s =>
      Return (match s with
              | EmptyString => VUndefined
              | String c _ => VStr (String c EmptyString)
              end)
  | VObj o => Return (field o "0")
  | VBool _ | VNum _ | VFun _ => Return VUndefined
  end.

End JS.
Export JS.

(** ** A state and exception monad for the hooks and listeners

    A computation reads and updates a store [S] and either returns or
    throws; a throw keeps the store as it was at the point of the throw. *)

Definition M (S A : Type) : Type := S → completion A * S.

#[global] Instance M_ret {S} : MRet (M S) := λ A a s, (Return a, s).
#[global] Instance M_bind {S} : MBind (M S) := λ A B f m s,
  match m s with
  | (Return a, s') => f a s'
  | (Throw e, s') => (Throw e, s')
  end.

Definition throw {S A} (e : exn) : M S A := λ s, (Throw e, s).
Definition gets {S A} (f : S → A) : M S A := λ s, (Return (f s), s).
Definition modify {S} (f : S → S) : M S unit := λ s, (Return tt, f s).
Definition lift {S A} (c : completion A) : M S A := λ s, (c, s).
Definition when_ {S} (b : bool) (m : M S unit) : M S unit :=
  if b then m else mret tt.

Definition exec {S A} (m : M S A) (s : S) : S := snd (m s).
Definition outcome {S A} (m : M S A) (s : S) : completion A := fst (m s).

(** ** [src/api/helpers.js] *)

Module Helpers.

Section GetApiAddressUrl.

(** [nodeIdMappingAddress] is imported from the configuration module:
    [None] when the configuration defines no mapping ([undefined] or
    [null]), otherwise the own properties of the configured plain object.
    The read [nodeIdMappingAddress[nodeId]] takes a name chosen by the
    caller, so it also reaches the members the object inherits. *)
Variable nodeIdMappingAddress : option (gmap string value).

(** The guard [nodeIdMappingAddress && nodeIdMappingAddress[nodeId]]. *)
Definition mapped (nodeId : string) : value :=
  match nodeIdMappingAddress with
  | None => VUndefined
  | Some m => read m nodeId
  end.

Definition getApiAddressUrl (nodeId : string) : completion value :=
  if truthy (mapped nodeId) then Return (mapped nodeId)
  else if String.eqb nodeId "rp1" then Return (VStr "http://localhost:8200")
  else if String.eqb nodeId "rp2" then Return (VStr "http://localhost:8201")
  else if String.eqb nodeId "idp1" then Return (VStr "http://localhost:8100")
  else if String.eqb nodeId "idp2" then Return (VStr "http://localhost:8101")
  else if String.eqb nodeId "idp3" then Return (VStr "http://localhost:8102")
  else if String.eqb nodeId "as1" then Return (VStr "http://localhost:8300")
  else if String.eqb nodeId "as2" then Return (VStr "http://localhost:8301")
  else if String.eqb nodeId "ndid1" then Return (VStr "http://localhost:8080")
  else if String.eqb nodeId "proxy1" then Return (VStr "http://localhost:8400")
  else if String.eqb nodeId "proxy2" then Return (VStr "http://localhost:8401")
  else Throw (Error "Unsupported Node ID").

End GetApiAddressUrl.

(** The second argument of [fetch(url, init)]. *)
Record init : Type := Init {
  method : string;
  headers : gmap string string;
  body : option string;   (* [None]: no [body] key, or [undefined] *)
}.

(** The network as [fetch] sees it: the requests issued so far, oldest
    first. *)
Abbreviation network := (list (string * init)).

Section Fetch.

(** [JSON.stringify]; it gives [undefined] (here [None]) for [undefined]. *)
Variable JSON_stringify : value → option string.

(** What the remote end answers: the value the promise of [fetch] settles
    to, given the requests issued before. *)
Variable respond : network → string → init → completion value.

Definition fetch (url : string) (i : init) : M network value :=
  λ net, (respond net url i, net ++ [(url, i)]).

Definition httpGet (url : string) : M network value :=
  fetch url
    {| method := "GET";
       headers := {[ "Accept" := "application/json" ]};
       body := None |}.

Definition httpPost (url : string) (body : value) : M network value :=
  fetch url
    {| method := "POST";
       headers := <[ "Accept" := "application/json" ]>
                    {[ "Content-Type" := "application/json" ]};
       body := JSON_stringify body |}.

Definition httpDelte (url : string) : M network value :=
  fetch url
    {| method := "DELETE";
       headers := {[ "Accept" := "application/json" ]};
       body := None |}.

End Fetch.

End Helpers.

(** ** [src/tests/index.js] *)

Module Index.

(** What the hook does to the outside, in order. *)
Inductive call : Type :=
  | StartCallbackServers
  | StartDpkiCallbackServer
  | IsNodeAvailable (nodeId : string).

(** The module's exported bindings, and the calls made so far. *)
Record state : Type := State {
  ndidAvailable : value;
  rpAvailable : value;
  idp1Available : value;
  idp2Available : value;
  as1Available : value;
  as2Available : value;
  proxy1Available : value;
  proxy2Available : value;
  calls : list call;
}.

(** [export let ...;] leaves every flag [undefined]. *)
Definition initial : state :=
  State VUndefined VUndefined VUndefined VUndefined
        VUndefined VUndefined VUndefined VUndefined [].

Definition do_call (c : call) : M state unit :=
  modify (λ '(State ndid rp idp1 idp2 as1 as2 proxy1 proxy2 cs),
            State ndid rp idp1 idp2 as1 as2 proxy1 proxy2 (cs ++ [c])).

Section Hooks.

(** [isNodeAvailable] comes from [../helpers]: the value its promise
    resolves to for a node id. *)
Variable isNodeAvailable_result : string → value.

(** [config.USE_EXTERNAL_CRYPTO_SERVICE]. *)
Variable USE_EXTERNAL_CRYPTO_SERVICE : value.

(** [Promise.all([...])] starts the eight calls in the order of the array
    literal and resolves to their results in that order. *)
Definition isNodeAvailable (nodeId : string) : M state value :=
  do_call (IsNodeAvailable nodeId);; mret (isNodeAvailable_result nodeId).

Definition checkForAvailableNodes : M state unit :=
  _ndidAvailable ← isNodeAvailable "ndid1";
  _rpAvailable ← isNodeAvailable "rp1";
  _idp1Available ← isNodeAvailable "idp1";
  _idp2Available ← isNodeAvailable "idp2";
  _as1Available ← isNodeAvailable "as1";
  _as2Available ← isNodeAvailable "as2";
  _proxy1Available ← isNodeAvailable "proxy1";
  _proxy2Available ← isNodeAvailable "proxy2";
  modify (λ s, State _ndidAvailable _rpAvailable _idp1Available
                     _idp2Available _as1Available _as2Available
                     _proxy1Available _proxy2Available (calls s)).

Definition before : M state unit :=
  do_call StartCallbackServers;;
  when_ (truthy USE_EXTERNAL_CRYPTO_SERVICE) (do_call StartDpkiCallbackServer);;
  checkForAvailableNodes;;
  rp ← gets rpAvailable;
  idp1 ← gets idp1Available;
  if negb (truthy rp) || negb (truthy idp1)
  then throw (Error "Could not connect to RP and IdP-1 nodes")
  else mret tt.

End Hooks.

End Index.

(** ** Event emitters of the callback servers

    The emitters are Node [EventEmitter]s exported by [callback_server]:
    [on] appends a listener to the list kept for an event name,
    [removeAllListeners(name)] drops that list, [emit] calls the listeners
    of the name in registration order. *)

Module EventEmitter.

Inductive emitter : Type :=
  | rpEventEmitter
  | idp1EventEmitter
  | idp2EventEmitter
  | as1EventEmitter.

#[global] Instance emitter_eq_dec : EqDecision emitter.
Proof. solve_decision. Defined.

(** The state of the [callback_server] module that the hooks touch: every
    emitter's table from event name to listeners (listener functions have
    type [L]), and the switch behind [setAsSendDataThroughCallback]. *)
Record server (L : Type) : Type := Server {
  tables : emitter → gmap string (list L);
  asSendDataThroughCallback : value;
}.
Arguments Server {L} _ _.
Arguments tables {L} _ _.
Arguments asSendDataThroughCallback {L} _.

Section Emitters.

Context {L : Type}.

Definition listeners (sv : server L) (e : emitter) (name : string) : list L :=
  default [] (tables sv e !! name).

Definition on (e : emitter) (name : string) (l : L) : M (server L) unit :=
  modify (λ sv,
    Server (<[ e := <[ name := listeners sv e name ++ [l] ]> (tables sv e) ]>
              (tables sv))
           (asSendDataThroughCallback sv)).

Definition removeAllListeners (e : emitter) (name : string) : M (server L) unit :=
  modify (λ sv,
    Server (<[ e := delete name (tables sv e) ]> (tables sv))
           (asSendDataThroughCallback sv)).

Definition setAsSendDataThroughCallback (v : value) : M (server L) unit :=
  modify (λ sv, Server (tables sv) v).

End Emitters.

(** A hook [before] subscribes to event [name] of emitter [e]: from some
    server state, running it changes the listeners kept there. *)
Definition subscribes {L} (before : M (server L) unit) (e : emitter)
    (name : string) : Prop :=
  ∃ sv, listeners (exec before sv) e name ≠ listeners sv e name.

(** A hook [after] leaves no listener for event [name] on emitter [e],
    whatever was registered there, by this file or by another. *)
Definition clears {L} (after : M (server L) unit) (e : emitter)
    (name : string) : Prop :=
  ∀ sv, listeners (exec after sv) e name = [].

(** [emit(name, data)]: run the listeners in order; a listener that throws
    ends the emit with that exception. *)
Fixpoint emit_all {S A} (ls : list (A → M S unit)) (data : A) : M S unit :=
  match ls with
  | [] => mret tt
  | l :: ls' => l data;; emit_all ls' data
  end.

End EventEmitter.
Export EventEmitter.

(** [this.skip()] inside a hook: Mocha raises its [Pending] exception, the
    rest of the hook does not run. *)
Definition skip {S} : M S unit := throw (Pending "sync skip").

(** ** The enable-service-destination test
    ([describe('NDID enable service destination test')]) *)

Module EnableServiceDestination.

Inductive promise : Type :=
  | createRequestResultPromise
  | incomingRequestPromise
  | responseResultPromise
  | dataRequestReceivedPromise
  | sendDataResultPromise.

(** The variables of the [describe] block that the listeners read or
    write: [requestId] (set by a test step), and the calls made so far to
    the [resolve] functions of the event promises. *)
Record state : Type := State {
  requestId : value;
  resolved : list (promise * obj);
}.

Definition resolve (p : promise) (callbackData : obj) : M state unit :=
  modify (λ s, State (requestId s) (resolved s ++ [(p, callbackData)])).

Section Listeners.

(** The reference ids drawn by [generateReferenceId()]. *)
Variables rpReferenceId idpReferenceId asServiceReferenceId : value.

Definition rp_callback (callbackData : obj) : M state unit :=
  if strict_eq (field callbackData "type") (VStr "create_request_result")
     && strict_eq (field callbackData "reference_id") rpReferenceId
  then resolve createRequestResultPromise callbackData
  else mret tt.

Definition idp1_callback (callbackData : obj) : M state unit :=
  requestId ← gets requestId;
  if strict_eq (field callbackData "type") (VStr "incoming_request")
     && strict_eq (field callbackData "request_id") requestId
  then resolve incomingRequestPromise callbackData
  else if strict_eq (field callbackData "type") (VStr "response_result")
          && strict_eq (field callbackData "reference_id") idpReferenceId
  then resolve responseResultPromise callbackData
  else mret tt.

Definition as1_callback (callbackData : obj) : M state unit :=
  requestId ← gets requestId;
  if strict_eq (field callbackData "type") (VStr "data_request")
     && strict_eq (field callbackData "request_id") requestId
  then resolve dataRequestReceivedPromise callbackData
  else if strict_eq (field callbackData "type") (VStr "send_data_result")
  then
    if strict_eq (field callbackData "reference_id") asServiceReferenceId
    then resolve sendDataResultPromise callbackData
    else mret tt
  else mret tt.

(** The availability flags imported from [tests/index.js]. *)
Variables ndidAvailable as1Available idp1Available : value.

(** How the emitters hold this file's listener functions. *)
Context {L : Type} (listener : (obj → M state unit) → L).

(** The hook's assignment to [createRequestParams], which no listener
    reads, is left out. *)
Definition before : M (server L) unit :=
  when_ (negb (truthy ndidAvailable) || negb (truthy as1Available)
         || negb (truthy idp1Available)) skip;;
  on rpEventEmitter "callback" (listener rp_callback);;
  on idp1EventEmitter "callback" (listener idp1_callback);;
  on as1EventEmitter "callback" (listener as1_callback).

Definition after : M (server L) unit :=
  removeAllListeners rpEventEmitter "callback";;
  removeAllListeners idp1EventEmitter "callback";;
  removeAllListeners as1EventEmitter "callback".

End Listeners.

(** The [resolve] calls that one callback adds. *)
Definition newly_resolved (l : obj → M state unit) (s : state) (cb : obj)
  : list (promise * obj) :=
  drop (length (resolved s)) (resolved (exec (l cb) s)).

End EnableServiceDestination.

(** ** The too-large-AS-data test
    ([describe('Too large AS data size, response through callback, 1 IdP,
    1 AS, mode 3')]) *)

Module TooLargeAsData.

Inductive promise : Type :=
  | createRequestResultPromise
  | requestStatusPendingPromise
  | incomingRequestPromise
  | responseResultPromise
  | requestStatusConfirmedPromise
  | dataRequestReceivedPromise
  | errorCallbackPromise
  | sendDataResultPromise
  | requestStatusSignedDataPromise
  | requestStatusCompletedPromise
  | requestClosedPromise.

#[global] Instance promise_eq_dec : EqDecision promise.
Proof. solve_decision. Defined.

(** [requestId], the [requestStatusUpdates] array, the calls made to the
    promises' [resolve] functions and to the [sendData] argument of the AS
    listener. *)
Record state : Type := State {
  requestId : value;
  requestStatusUpdates : list obj;
  resolved : list (promise * obj);
  sent : list obj;
}.

Definition resolve (p : promise) (callbackData : obj) : M state unit :=
  modify (λ s, State (requestId s) (requestStatusUpdates s)
                     (resolved s ++ [(p, callbackData)]) (sent s)).

Definition requestStatusUpdates_push (callbackData : obj) : M state unit :=
  modify (λ s, State (requestId s) (requestStatusUpdates s ++ [callbackData])
                     (resolved s) (sent s)).

(** A [sendData] function that does nothing but record the call. *)
Definition sendData (payload : obj) : M state unit :=
  modify (λ s, State (requestId s) (requestStatusUpdates s)
                     (resolved s) (sent s ++ [payload])).

(** The call [sendData(payload)] of a listener's second argument.  The
    argument is what the emitter passed: [None] when it passed nothing that
    can be called, so that the call raises a [TypeError]; otherwise the
    function, which runs on the store and may itself throw. *)
Definition call_sendData (sendData : option (obj → M state unit))
    (payload : obj) : M state unit :=
  match sendData with
  | Some f => f payload
  | None => throw (TypeError "sendData is not a function")
  end.

Section Listeners.

Variables rpReferenceId idpReferenceId asReferenceId : value.

(** [crypto.randomBytes(2499995).toString('hex')]. *)
Variable data : value.

(** [callbackData.service_list[0].signed_data_count]. *)
Definition signed_data_count_0 (callbackData : obj) : completion value :=
  match get_index0 (field callbackData "service_list") with
  | Return service => get_prop service "signed_data_count"
  | Throw e => Throw e
  end.

Definition rp_callback (callbackData : obj) : M state unit :=
  requestId ← gets requestId;
  if strict_eq (field callbackData "type") (VStr "create_request_result")
     && strict_eq (field callbackData "reference_id") rpReferenceId
  then resolve createRequestResultPromise callbackData
  else if strict_eq (field callbackData "type") (VStr "request_status")
          && strict_eq (field callbackData "request_id") requestId
  then
    requestStatusUpdates_push callbackData;;
    if strict_eq (field callbackData "status") (VStr "pending")
    then resolve requestStatusPendingPromise callbackData
    else if strict_eq (field callbackData "status") (VStr "confirmed")
    then
      count ← lift (signed_data_count_0 callbackData);
      if strict_eq count (VNum 1)
      then resolve requestStatusSignedDataPromise callbackData
      else resolve requestStatusConfirmedPromise callbackData
    else if strict_eq (field callbackData "status") (VStr "completed")
    then
      if truthy (field callbackData "closed")
      then resolve requestClosedPromise callbackData
      else resolve requestStatusCompletedPromise callbackData
    else mret tt
  else mret tt.

Definition idp1_callback (callbackData : obj) : M state unit :=
  requestId ← gets requestId;
  if strict_eq (field callbackData "type") (VStr "incoming_request")
     && strict_eq (field callbackData "request_id") requestId
  then resolve incomingRequestPromise callbackData
  else if strict_eq (field callbackData "type") (VStr "response_result")
          && strict_eq (field callbackData "reference_id") idpReferenceId
  then resolve responseResultPromise callbackData
  else mret tt.

(** The AS listener, [function(callbackData, sendData)]. *)
Definition as1_listener (callbackData : obj)
    (sendData : option (obj → M state unit)) : M state unit :=
  requestId ← gets requestId;
  if strict_eq (field callbackData "type") (VStr "data_request")
     && strict_eq (field callbackData "request_id") requestId
  then
    resolve dataRequestReceivedPromise callbackData;;
    call_sendData sendData {[ "data" := data ]}
  else if strict_eq (field callbackData "type") (VStr "send_data_result")
          && strict_eq (field callbackData "reference_id") asReferenceId
  then resolve sendDataResultPromise callbackData
  else if strict_eq (field callbackData "type") (VStr "error")
  then resolve errorCallbackPromise callbackData
  else mret tt.

(** The AS listener as run on one callback by an emitter that passes the
    recording [sendData] as second argument. *)
Definition as1_callback (callbackData : obj) : M state unit :=
  as1_listener callbackData (Some sendData).

(** [db.idp1Identities], the identities earlier test files created. *)
Variable idp1Identities : list value.

Context {L : Type} (listener : (obj → M state unit) → L).

(** The hook's assignments to [namespace], [identifier] and
    [createRequestParams], which no listener reads, are left out. *)
Definition before : M (server L) unit :=
  when_ (loose_eq_null (default VUndefined (head idp1Identities)))
        (throw (Error "No created identity to use"));;
  setAsSendDataThroughCallback (VBool true);;
  on rpEventEmitter "callback" (listener rp_callback);;
  on idp1EventEmitter "callback" (listener idp1_callback);;
  on as1EventEmitter "callback" (listener as1_callback).

Definition after : M (server L) unit :=
  setAsSendDataThroughCallback (VBool false);;
  removeAllListeners rpEventEmitter "callback";;
  removeAllListeners idp1EventEmitter "callback";;
  removeAllListeners as1EventEmitter "callback".

End Listeners.

(** The promises whose [resolve] one callback calls, in call order. *)
Definition newly_resolved (l : obj → M state unit) (s : state) (cb : obj)
  : list promise :=
  map fst (drop (length (resolved s)) (resolved (exec (l cb) s))).

End TooLargeAsData.

(** ** [src/tests/verify_identity/2_idp_1_accept_1_reject_mode_1.js] *)

Module TwoIdpAcceptRejectMode1.

Inductive promise : Type :=
  | createRequestResultPromise
  | requestStatusPendingPromise
  | idp1IncomingRequestPromise
  | idp1ResponseResultPromise
  | idp2IncomingRequestPromise
  | idp2ResponseResultPromise
  | requestStatusConfirmedPromise
  | requestStatusComplicatedPromise
  | closeRequestResultPromise
  | requestClosedPromise.

#[global] Instance promise_eq_dec : EqDecision promise.
Proof. solve_decision. Defined.

Record state : Type := State {
  requestId : value;
  requestStatusUpdates : list obj;
  resolved : list (promise * obj);
}.

Definition resolve (p : promise) (callbackData : obj) : M state unit :=
  modify (λ s, State (requestId s) (requestStatusUpdates s)
                     (resolved s ++ [(p, callbackData)])).

Definition requestStatusUpdates_push (callbackData : obj) : M state unit :=
  modify (λ s, State (requestId s) (requestStatusUpdates s ++ [callbackData])
                     (resolved s)).

Section Listeners.

Variables rpReferenceId rpCloseRequestReferenceId : value.

Definition rp_callback (callbackData : obj) : M state unit :=
  requestId ← gets requestId;
  if strict_eq (field callbackData "type") (VStr "create_request_result")
     && strict_eq (field callbackData "reference_id") rpReferenceId
  then resolve createRequestResultPromise callbackData
  else if strict_eq (field callbackData "type") (VStr "request_status")
          && strict_eq (field callbackData "request_id") requestId
  then
    requestStatusUpdates_push callbackData;;
    if strict_eq (field callbackData "status") (VStr "pending")
    then resolve requestStatusPendingPromise callbackData
    else if strict_eq (field callbackData "status") (VStr "confirmed")
    then resolve requestStatusConfirmedPromise callbackData
    else if strict_eq (field callbackData "status") (VStr "complicated")
    then
      when_ (truthy (field callbackData "closed"))
            (resolve requestClosedPromise callbackData);;
      resolve requestStatusComplicatedPromise callbackData
    else mret tt
  else if strict_eq (field callbackData "type") (VStr "close_request_result")
          && strict_eq (field callbackData "reference_id") rpCloseRequestReferenceId
  then resolve closeRequestResultPromise callbackData
  else mret tt.

Definition idp1_callback (callbackData : obj) : M state unit :=
  requestId ← gets requestId;
  if strict_eq (field callbackData "type") (VStr "incoming_request")
     && strict_eq (field callbackData "request_id") requestId
  then resolve idp1IncomingRequestPromise callbackData
  else if strict_eq (field callbackData "type") (VStr "response_result")
  then resolve idp1ResponseResultPromise callbackData
  else mret tt.

Definition idp2_callback (callbackData : obj) : M state unit :=
  requestId ← gets requestId;
  if strict_eq (field callbackData "type") (VStr "incoming_request")
     && strict_eq (field callbackData "request_id") requestId
  then resolve idp2IncomingRequestPromise callbackData
  else if strict_eq (field callbackData "type") (VStr "response_result")
  then resolve idp2ResponseResultPromise callbackData
  else mret tt.

Variable idp2Available : value.

Context {L : Type} (listener : (obj → M state unit) → L).

(** The hook's assignments to [namespace], [identifier] and
    [createRequestParams], which no listener reads, are left out. *)
Definition before : M (server L) unit :=
  when_ (negb (truthy idp2Available)) skip;;
  on rpEventEmitter "callback" (listener rp_callback);;
  on idp1EventEmitter "callback" (listener idp1_callback);;
  on idp2EventEmitter "callback" (listener idp2_callback).

Definition after : M (server L) unit :=
  removeAllListeners rpEventEmitter "callback";;
  removeAllListeners idp1EventEmitter "callback";;
  removeAllListeners idp2EventEmitter "callback".

End Listeners.

(** The [resolve] calls that one callback adds. *)
Definition newly_resolved (l : obj → M state unit) (s : state) (cb : obj)
  : list (promise * obj) :=
  drop (length (resolved s)) (resolved (exec (l cb) s)).

End TwoIdpAcceptRejectMode1.

(** ** [src/tests/create_identity/2nd_idp.js] *)

Module SecondIdp.

Inductive promise : Type :=
  | createIdentityRequestResultPromise
  | accessorSignPromise
  | incomingRequestPromise
  | responseResultPromise
  | createIdentityResultPromise.

Record state : Type := State {
  requestId : value;
  resolved : list (promise * obj);
}.

Definition resolve (p : promise) (callbackData : obj) : M state unit :=
  modify (λ s, State (requestId s) (resolved s ++ [(p, callbackData)])).

Section Listeners.

Variables referenceId idp1ReferenceId : value.

Definition idp1_callback (callbackData : obj) : M state unit :=
  requestId ← gets requestId;
  if strict_eq (field callbackData "type") (VStr "incoming_request")
     && strict_eq (field callbackData "request_id") requestId
  then resolve incomingRequestPromise callbackData
  else if strict_eq (field callbackData "type") (VStr "response_result")
          && strict_eq (field callbackData "reference_id") idp1ReferenceId
  then resolve responseResultPromise callbackData
  else mret tt.

Definition idp2_callback (callbackData : obj) : M state unit :=
  if strict_eq (field callbackData "type") (VStr "create_identity_request_result")
     && strict_eq (field callbackData "reference_id") referenceId
  then resolve createIdentityRequestResultPromise callbackData
  else if strict_eq (field callbackData "type") (VStr "create_identity_result")
          && strict_eq (field callbackData "reference_id") referenceId
  then resolve createIdentityResultPromise callbackData
  else mret tt.

Definition idp2_accessor_sign_callback (callbackData : obj) : M state unit :=
  if strict_eq (field callbackData "reference_id") referenceId
  then resolve accessorSignPromise callbackData
  else mret tt.

Variable idp2Available : value.
Variable idp1Identities : list value.

Context {L : Type} (listener : (obj → M state unit) → L).

(** The assignments to [namespace] and [identifier] are left out. *)
Definition before : M (server L) unit :=
  when_ (negb (truthy idp2Available)) skip;;
  when_ (loose_eq_null (default VUndefined (head idp1Identities)))
        (throw (Error "No created identity to use"));;
  on idp1EventEmitter "callback" (listener idp1_callback);;
  on idp2EventEmitter "callback" (listener idp2_callback);;
  on idp2EventEmitter "accessor_sign_callback"
     (listener idp2_accessor_sign_callback).

Definition after : M (server L) unit :=
  removeAllListeners idp1EventEmitter "callback";;
  removeAllListeners idp2EventEmitter "callback";;
  removeAllListeners idp2EventEmitter "accessor_sign_callback".

End Listeners.

End SecondIdp.

(** ** [src/tests/ndid_disable_enable/enable_namespace.js] *)

Module EnableNamespace.

Inductive promise : Type :=
  | createIdentityRequestResultPromise
  | accessorSignPromise
  | createIdentityResultPromise.

Record state : Type := State {
  resolved : list (promise * obj);
}.

Definition resolve (p : promise) (callbackData : obj) : M state unit :=
  modify (λ s, State (resolved s ++ [(p, callbackData)])).

Section Listeners.

Variable referenceId : value.

Definition idp1_callback (callbackData : obj) : M state unit :=
  if strict_eq (field callbackData "type") (VStr "create_identity_request_result")
     && strict_eq (field callbackData "reference_id") referenceId
  then resolve createIdentityRequestResultPromise callbackData
  else if strict_eq (field callbackData "type") (VStr "create_identity_result")
          && strict_eq (field callbackData "reference_id") referenceId
  then resolve createIdentityResultPromise callbackData
  else mret tt.

Definition idp1_accessor_sign_callback (callbackData : obj) : M state unit :=
  if strict_eq (field callbackData "reference_id") referenceId
  then resolve accessorSignPromise callbackData
  else mret tt.

Context {L : Type} (listener : (obj → M state unit) → L).

Definition before : M (server L) unit :=
  on idp1EventEmitter "callback" (listener idp1_callback);;
  on idp1EventEmitter "accessor_sign_callback"
     (listener idp1_accessor_sign_callback).

Definition after : M (server L) unit :=
  removeAllListeners idp1EventEmitter "callback";;
  removeAllListeners idp1EventEmitter "accessor_sign_callback".

End Listeners.

End EnableNamespace.

(** ** [src/tests/token/reduce_token_fail_tx.js] *)

Module ReduceTokenFailTx.

(** What the test reads of a [fetch] response: [response.status] and the
    outcome of [await response.json()]. *)
Record response : Type := Response {
  status : value;
  json : completion value;
}.

(** Calls of the REST client wrappers ([api/v2/common], [api/v2/ndid],
    [api/v2/debug]), with the node the call is sent to first. *)
Inductive call : Type :=
  | GetToken (nodeId : string)
  | SetNodeToken (nodeId : string) (data : obj)
  | Transact (nodeId : string) (data : obj).

(** [expect(actual).to.equal(expected)]: strict equality, else an
    [AssertionError]. *)
Definition expect_equal {S} (actual expected : value) : M S unit :=
  if strict_eq actual expected then mret tt
  else throw (AssertionError "expected values to be strictly equal").

(** [await wait(ms)]: only time passes. *)
Definition wait {S} (ms : Z) : M S unit := mret tt.

Section Suite.

(** The platform under test, and what the three wrappers do to it. *)
Variable W : Type.
Variable getToken : string → M W response.
Variable setNodeToken : string → obj → M W response.
Variable transact : string → obj → M W response.

Variables ndidAvailable idp1Available : value.
Variable accessorPublicKey : value.

(** The platform, the [describe] block's variable [nodeTokenBeforeTest],
    and the wrapper calls made so far. *)
Record state : Type := State {
  platform : W;
  nodeTokenBeforeTest : value;
  log : list call;
}.

(** [let nodeTokenBeforeTest = 0;] *)
Definition initial (w : W) : state := State w (VNum 0) [].

(** A wrapper call: logged, then run against the platform. *)
Definition api {A} (c : call) (m : M W A) : M state A :=
  λ s, let '(r, w) := m (platform s) in
       (r, State w (nodeTokenBeforeTest s) (log s ++ [c])).

Definition commonApi_getToken (nodeId : string) : M state response :=
  api (GetToken nodeId) (getToken nodeId).

Definition ndidApi_setNodeToken (nodeId : string) (data : obj) : M state response :=
  api (SetNodeToken nodeId data) (setNodeToken nodeId data).

Definition debugApi_transact (nodeId : string) (data : obj) : M state response :=
  api (Transact nodeId data) (transact nodeId data).

Definition before : M state unit :=
  when_ (negb (truthy ndidAvailable) || negb (truthy idp1Available)) skip;;
  response ← commonApi_getToken "idp1";
  responseBody ← lift (json response);
  amount ← lift (get_prop responseBody "amount");
  modify (λ s, State (platform s) amount (log s)).

(** [for (let i of [1, 2, 3, 4, 5]) await debugApi.transact('idp1', tx)] *)
Fixpoint flood (n : nat) (tx : obj) : M state unit :=
  match n with
  | O => mret tt
  | S n' => debugApi_transact "idp1" tx;; flood n' tx
  end.

(** The platform after [k] calls [transact('idp1', tx)] that all answered;
    there is none once one of these calls has thrown. *)
Fixpoint answered (k : nat) (tx : obj) (w : W) : option W :=
  match k with
  | O => Some w
  | S k' =>
      match transact "idp1" tx w with
      | (Return _, w') => answered k' tx w'
      | (Throw _, _) => None
      end
  end.

Definition add_accessor_tx (accessor_public_key : value) : obj :=
  <[ "nodeId" := VStr "idp1" ]>
  (<[ "fnName" := VStr "AddAccessorMethod" ]>
  (<[ "request_id" := VStr "request_id test" ]>
  (<[ "accessor_group_id" := VStr "accessor_group_id test" ]>
  (<[ "accessor_type" := VStr "accessor_type test" ]>
  (<[ "accessor_id" := VStr "accessor_id test" ]>
  {[ "accessor_public_key" := accessor_public_key ]}))))).

Definition set_token_params (amount : value) : obj :=
  <[ "node_id" := VStr "idp1" ]> {[ "amount" := amount ]}.

Definition it_set_node_token : M state unit :=
  response ← ndidApi_setNodeToken "ndid1" (set_token_params (VNum 5));
  expect_equal (status response) (VNum 204);;
  wait 2000.

Definition it_fail_tx_CheckTx : M state unit :=
  flood 5 (add_accessor_tx (VStr "Invalid key format"));;
  wait 3000.

Definition it_token_after (expected : Q) : M state unit :=
  responseGetToken ← commonApi_getToken "idp1";
  responseBodyGetToken ← lift (json responseGetToken);
  expect_equal (status responseGetToken) (VNum 200);;
  amount ← lift (get_prop responseBodyGetToken "amount");
  expect_equal amount (VNum expected).

Definition it_fail_tx_DeliverTx : M state unit :=
  flood 5 (add_accessor_tx accessorPublicKey);;
  wait 3000.

(** The five [it] blocks, in source order. *)
Definition tests : list (M state unit) :=
  [ it_set_node_token;
    it_fail_tx_CheckTx;
    it_token_after 5;
    it_fail_tx_DeliverTx;
    it_token_after 0 ].

Definition after : M state unit :=
  nodeTokenBeforeTest ← gets nodeTokenBeforeTest;
  response ← ndidApi_setNodeToken "ndid1" (set_token_params nodeTokenBeforeTest);
  expect_equal (status response) (VNum 204);;
  wait 2000.

(** Mocha runs the tests of a block one after the other; a test that
    throws is reported as failed and the next one starts from the state it
    left. *)
Fixpoint run_tests (ts : list (M state unit)) (s : state) : state :=
  match ts with
  | [] => s
  | t :: ts' => run_tests ts' (exec t s)
  end.

(** Mocha runs the [describe] block: the [before] hook; the tests, unless
    the hook threw (it failed, or it skipped the block); and the [after]
    hook in either case. *)
Definition run_file (s : state) : state :=
  match before s with
  | (Return _, s1) => exec after (run_tests tests s1)
  | (Throw _, s1) => exec after s1
  end.

(** The token amount that [getToken('idp1')] reports on platform [w], if
    the call, the decoding of the body and the read of [amount] succeed. *)
Definition idp1_amount (w : W) : option value :=
  match getToken "idp1" w with
  | (Return r, _) =>
      match json r with
      | Return responseBody =>
          match get_prop responseBody "amount" with
          | Return a => Some a
          | Throw _ => None
          end
      | Throw _ => None
      end
  | (Throw _, _) => None
  end.

End Suite.

Arguments platform {W} _.
Arguments nodeTokenBeforeTest {W} _.
Arguments log {W} _.
Arguments State {W} _ _ _.

(** A step that never writes [nodeTokenBeforeTest]. *)
Definition keeps {W A} (m : M (state W) A) : Prop :=
  ∀ s, nodeTokenBeforeTest (snd (m s)) = nodeTokenBeforeTest s.

(** A wrapper call that concerns the token of idp1: a read of it, a
    transaction sent by idp1, or a [setNodeToken] for [node_id: 'idp1']
    sent through ndid1. *)
Definition about_idp1 (c : call) : Prop :=
  match c with
  | GetToken nodeId => nodeId = "idp1"
  | Transact nodeId _ => nodeId = "idp1"
  | SetNodeToken nodeId data =>
      nodeId = "ndid1" ∧ field data "node_id" = VStr "idp1"
  end.

(** A step that only adds calls about idp1 to the log. *)
Definition calls_about_idp1 {W A} (m : M (state W) A) : Prop :=
  ∀ s, ∃ new, log (snd (m s)) = log s ++ new ∧ Forall about_idp1 new.

(** A token ledger to run the suite against: [getToken] reports the
    balance of the node, [setNodeToken] overwrites the balance of
    [data.node_id] with [data.amount], a transaction sets the balance of
    the sending node to zero. *)
Module Ledger.

Definition getToken (nodeId : string) : M (gmap string value) response :=
  λ w, (Return (Response (VNum 200)
                  (Return (VObj {[ "amount" := field w nodeId ]}))), w).

Definition setNodeToken (nodeId : string) (data : obj)
  : M (gmap string value) response :=
  λ w, match field data "node_id" with
       | VStr n => (Return (Response (VNum 204) (Return VUndefined)),
                    <[ n := field data "amount" ]> w)
       | _ => (Return (Response (VNum 400) (Return VUndefined)), w)
       end.

Definition transact (nodeId : string) (data : obj)
  : M (gmap string value) response :=
  λ w, (Return (Response (VNum 204) (Return VUndefined)),
        <[ nodeId := VNum 0 ]> w).

Definition world : gmap string value :=
  <[ "idp1" := VNum 1000 ]> {[ "rp1" := VNum 1000 ]}.

End Ledger.

End ReduceTokenFailTx.

(** ** [src/tests/index.js], the [after] hook *)

Module IndexAfter.

Inductive call : Type :=
  | StopCallbackServers
  | StopDpkiCallbackServer.

(** The hook, over the list of calls made so far. *)
Definition after (USE_EXTERNAL_CRYPTO_SERVICE : value) : M (list call) unit :=
  modify (λ cs, cs ++ [StopCallbackServers]);;
  when_ (truthy USE_EXTERNAL_CRYPTO_SERVICE)
        (modify (λ cs, cs ++ [StopDpkiCallbackServer])).

End IndexAfter.

(** ** Sequencing of computations that only return or throw *)

Module Completion.

#[export] Instance completion_ret : MRet completion := λ A a, Return a.
#[export] Instance completion_bind : MBind completion := λ A B f c,
  match c with
  | Return a => f a
  | Throw e => Throw e
  end.

(** [xs.find(p)]: the first element on which [p] is true, [undefined] when
    there is none; an exception of [p] ends the search. *)
Fixpoint find (p : value → completion bool) (xs : list value)
  : completion value :=
  match xs with
  | [] => Return VUndefined
  | x :: xs' =>
      match p x with
      | Return true => Return x
      | Return false => find p xs'
      | Throw e => Throw e
      end
  end.

End Completion.

(** ** The checks on [creation_block_height] in
    [src/tests/create_identity/2nd_idp.js] *)

Module BlockHeight.
Import Completion.
Import Stdlib.Strings.Ascii.

(** [s.split(sep)] for a one-character separator: the pieces between the
    occurrences of [sep], so one piece more than there are occurrences. *)
Fixpoint split (sep : Ascii.ascii) (s : string) : list string :=
  match s with
  | EmptyString => [EmptyString]
  | String c s' =>
      if Ascii.eqb c sep then EmptyString :: split sep s'
      else match split sep s' with
           | piece :: pieces => String c piece :: pieces
           | [] => [String c EmptyString]
           end
  end.

(** [expect(v).to.be.a('string')] *)
Definition expect_a_string (v : value) : completion string :=
  match v with
  | VStr s => Return s
  | _ => Throw (AssertionError "expected value to be a string")
  end.

(** [expect(xs).to.have.lengthOf(n)] on an array. *)
Definition expect_lengthOf (xs : list string) (n : nat) : completion unit :=
  if Nat.eqb (length xs) n then Return tt
  else Throw (AssertionError "expected array to have the given length").

(** [expect(xs[i]).to.have.lengthOf.at.least(n)] on an element of an array
    of strings; a missing element has no length.  The length of a string
    is compared with 1 only, where counting bytes or UTF-16 units agree. *)
Definition expect_lengthOf_at_least (x : option string) (n : nat)
  : completion unit :=
  match x with
  | Some s =>
      if Nat.leb n (String.length s) then Return tt
      else Throw (AssertionError "expected string to have a length at least n")
  | None => Throw (AssertionError "expected undefined to have a length")
  end.

(** The five lines that follow each read of [creation_block_height]. *)
Definition expect_creation_block_height (creation_block_height : value)
  : completion unit :=
  s ← expect_a_string creation_block_height;
  let splittedCreationBlockHeight := split ":"%char s in
  expect_lengthOf splittedCreationBlockHeight 2;;
  expect_lengthOf_at_least (splittedCreationBlockHeight !! 0%nat) 1;;
  expect_lengthOf_at_least (splittedCreationBlockHeight !! 1%nat) 1.

End BlockHeight.

(** ** The identity look-ups passed to [mode2And3FlowTest]
    (the [describe('1 IdP, reject consent, mode 3')] blocks) *)

Module FlowParams.
Import Completion.

Section Lookups.

(** [db.idp1Identities]. *)
Variable idp1Identities : list value.

(** [() => db.idp1Identities.find(identity => identity.mode === 3)] *)
Definition getIdentityForRequest : completion value :=
  find (λ identity,
          mode ← get_prop identity "mode";
          mret (strict_eq mode (VNum 3)))
       idp1Identities.

(** The test of the second [find]:
    [(identity.namespace === namespace &&
      identity.identifier === identifier) ||
     identity.referenceGroupCode === referenceGroupCode]. *)
Definition identity_matches (namespace identifier referenceGroupCode : value)
    (identity : value) : completion bool :=
  ns ← get_prop identity "namespace";
  same_sid ←
    (if strict_eq ns namespace
     then id ← get_prop identity "identifier";
          mret (strict_eq id identifier)
     else mret false);
  if same_sid : bool then mret true
  else rgc ← get_prop identity "referenceGroupCode";
       mret (strict_eq rgc referenceGroupCode).

(** [({ namespace, identifier, referenceGroupCode }) => { ...;
     return identity.accessors[0].accessorId; }] *)
Definition getAccessorForResponse (args : obj) : completion value :=
  identity ←
    find (identity_matches (field args "namespace") (field args "identifier")
            (field args "referenceGroupCode"))
         idp1Identities;
  accessors ← get_prop identity "accessors";
  accessor ← get_index0 accessors;
  get_prop accessor "accessorId".

End Lookups.

(** The test of the first [find] gives [b] on [identity]: its [mode] can
    be read and [mode === 3] is [b]. *)
Definition mode_is_3 (b : bool) (identity : value) : Prop :=
  ∃ mode, get_prop identity "mode" = Return mode
          ∧ strict_eq mode (VNum 3) = b.

End FlowParams.

(** ** The expected [data_request_list] of the too-large-AS-data test *)

Module DataRequestList.

(** [data_request_list.map(dataRequest => { const { request_params,
    ...dataRequestWithoutParams } = dataRequest;
    return { ...dataRequestWithoutParams }; })], on the objects of
    [createRequestParams.data_request_list]. *)
Definition dataRequestListWithoutParams (data_request_list : list obj)
  : list obj :=
  map (λ dataRequest, delete "request_params" dataRequest) data_request_list.

End DataRequestList.

(** ** Delivery of callbacks, one [emit] each *)

(** The callback server emits one event per received callback; what a
    listener throws ends that emit only, so the next callback meets the
    state the previous one left. *)
Definition deliver {S} (l : obj → M S unit) (cbs : list obj) (s : S) : S :=
  foldl (λ s cb, exec (l cb) s) s cbs.

(** ** What a hook does to the listener tables *)

(** The listeners that a list of registrations holds for event [name] of
    emitter [e], in registration order. *)
Definition registered {L} (regs : list (emitter * string * L)) (e : emitter)
    (name : string) : list L :=
  omap (λ '(e', name', l),
          if decide (e' = e ∧ name' = name) then Some l else None) regs.

(** A hook that returns and whose whole effect on the listeners is to
    append the registrations [regs], each to the list of its own event. *)
Definition registers {L} (hook : M (server L) unit)
    (regs : list (emitter * string * L)) : Prop :=
  ∀ sv, outcome hook sv = Return tt
        ∧ ∀ e name, listeners (exec hook sv) e name
                    = listeners sv e name ++ registered regs e name.

(** A hook that returns and whose whole effect on the listeners is to
    empty the lists of the events [keys]. *)
Definition removes {L} (hook : M (server L) unit)
    (keys : list (emitter * string)) : Prop :=
  ∀ sv, outcome hook sv = Return tt
        ∧ ∀ e name, listeners (exec hook sv) e name
                    = if decide ((e, name) ∈ keys) then []
                      else listeners sv e name.

(** Running [before] and then [after] gives back the listener tables as
    they were, provided nothing was kept for the events [keys]. *)
Definition restores {L} (before after : M (server L) unit)
    (keys : list (emitter * string)) : Prop :=
  ∀ sv, (∀ e name, (e, name) ∈ keys → tables sv e !! name = None) →
        ∀ e, tables (exec after (exec before sv)) e = tables sv e.

(** The test that lets a callback into the request-status branch of the
    RP listeners: [callbackData.type === 'request_status' &&
    callbackData.request_id === requestId]. *)
Definition is_status_update (requestId : value) (callbackData : obj) : bool :=
  strict_eq (field callbackData "type") (VStr "request_status")
  && strict_eq (field callbackData "request_id") requestId.

(** * Properties *)

(** ** Facts about values and the monad *)

Lemma strict_eq_VStr (v : value) (s : string) :
  strict_eq v (VStr s) = true ↔ v = VStr s.
Proof.
  destruct v; simpl; try (split; [discriminate | congruence]).
  rewrite String.eqb_eq. split; congruence.
Qed.

Lemma truthy_undefined_field (m : gmap string value) (k : string) :
  m !! k = None → truthy (field m k) = false.
Proof. intros E. unfold field. by rewrite E. Qed.

(** At a name that [Object.prototype] does not have, the read of a plain
    object is the lookup among its own properties. *)
Lemma read_field (o : obj) (k : string) :
  inherited k = VUndefined → read o k = field o k.
Proof. intros E. unfold read, field. by destruct (o !! k). Qed.

(** The property names that the listeners and tests read are not inherited
    ones. *)
Example names_not_inherited :
  Forall (λ k, inherited k = VUndefined)
    [ "type"; "reference_id"; "request_id"; "status"; "closed";
      "service_list"; "signed_data_count"; "amount"; "mode"; "namespace";
      "identifier"; "accessor_id"; "creation_block_height"; "rp1"; "idp1" ].
Proof. repeat constructor. Qed.

Lemma strict_eq_VStr_false (v : value) (s : string) :
  strict_eq v (VStr s) = false → v ≠ VStr s.
Proof. intros E ->. simpl in E. by rewrite String.eqb_refl in E. Qed.

(** Settles a goal [(p, d) ∈ l ↔ conditions] once the tests the listener
    makes have been decided: [l] is a singleton or empty, and the
    conditions name the tests together with their outcomes. *)
Ltac decide_resolved :=
  repeat match goal with
  | H : strict_eq _ (VStr _) = true |- _ => apply strict_eq_VStr in H
  | H : strict_eq _ (VStr _) = false |- _ => apply strict_eq_VStr_false in H
  end;
  rewrite ?list_elem_of_singleton, ?elem_of_nil;
  split;
  [ try (intros [= -> ->]); try (intros []); intuition (auto; congruence)
  | intros; intuition (subst; try reflexivity; try congruence) ].

(** ** The node address table *)

Module HelpersSpec.
Import Helpers.

Lemma getApiAddressUrl_unmapped nma nodeId :
  truthy (mapped nma nodeId) = false →
  getApiAddressUrl nma nodeId = getApiAddressUrl None nodeId.
Proof. intros E. unfold getApiAddressUrl. by rewrite E. Qed.

Lemma mapped_no_entry nma nodeId :
  (∀ m, nma = Some m → m !! nodeId = None) →
  inherited nodeId = VUndefined →
  truthy (mapped nma nodeId) = false.
Proof.
  intros H Hi. destruct nma as [m|]; simpl; [|done].
  unfold read. by rewrite (H m eq_refl), Hi.
Qed.

(** An inherited member is a function or an object: it passes the guard. *)
Lemma inherited_truthy nodeId :
  inherited nodeId = VUndefined ∨ truthy (inherited nodeId) = true.
Proof.
  unfold inherited. destruct (String.eqb nodeId "__proto__"); [by right|].
  unfold field.
  destruct (Object_prototype !! nodeId) as [v|] eqn:E; [right|by left].
  apply elem_of_list_to_map_2 in E. simpl.
  repeat (apply elem_of_cons in E as [[= _ ->] | E]; [reflexivity|]).
  by apply elem_of_nil in E.
Qed.

(** When the guard fails: the mapping is not configured, or the read finds
    a falsy own entry, or it finds no own entry and nothing inherited. *)
Lemma mapped_falsy nma nodeId :
  truthy (mapped nma nodeId) = false ↔
  ∀ m, nma = Some m →
    truthy (field m nodeId) = false
    ∧ (m !! nodeId = None → inherited nodeId = VUndefined).
Proof.
  destruct nma as [m|]; simpl; [|by split].
  unfold read, field. split.
  - intros E m' [= <-]. destruct (m !! nodeId) as [v|]; [by split|].
    split; [done|]. intros _.
    destruct (inherited_truthy nodeId) as [H|H]; [done|congruence].
  - intros H. destruct (H m eq_refl) as [H1 H2].
    destruct (m !! nodeId) as [v|]; [done|]. by rewrite H2.
Qed.

(** C1. For each of the ten supported node ids, when
    [nodeIdMappingAddress] has no entry for the id (or is not configured),
    [getApiAddressUrl] returns the fixed localhost base URL of the node. *)
Theorem getApiAddressUrl_builtin (nma : option (gmap string value))
    (nodeId url : string) :
  (∀ m, nma = Some m → m !! nodeId = None) →
  (nodeId, url) ∈
    [ ("rp1", "http://localhost:8200"); ("rp2", "http://localhost:8201");
      ("idp1", "http://localhost:8100"); ("idp2", "http://localhost:8101");
      ("idp3", "http://localhost:8102"); ("as1", "http://localhost:8300");
      ("as2", "http://localhost:8301"); ("ndid1", "http://localhost:8080");
      ("proxy1", "http://localhost:8400"); ("proxy2", "http://localhost:8401") ] →
  getApiAddressUrl nma nodeId = Return (VStr url).
Proof.
  intros Hno Hin.
  repeat (apply elem_of_cons in Hin as [[= -> ->] | Hin];
          [by rewrite getApiAddressUrl_unmapped by by apply mapped_no_entry|]).
  by apply elem_of_nil in Hin.
Qed.

Lemma getApiAddressUrl_builtin_witness :
  getApiAddressUrl (Some {[ "idp9" := VStr "http://10.0.0.9:8100" ]}) "as2"
  = Return (VStr "http://localhost:8301").
Proof.
  apply getApiAddressUrl_builtin.
  - intros m [= <-]. vm_compute. reflexivity.
  - do 6 apply list_elem_of_further. apply list_elem_of_here.
Defined.

(** C8. A node id with a truthy entry in the configured
    [nodeIdMappingAddress] map gets that entry back, whatever the id is:
    the entry wins over the built-in address of a built-in id, and an id
    outside the ten built-in ones returns normally instead of throwing. *)
Theorem getApiAddressUrl_mapped (m : gmap string value) (nodeId : string) :
  truthy (field m nodeId) = true →
  getApiAddressUrl (Some m) nodeId = Return (field m nodeId).
Proof.
  intros E. unfold getApiAddressUrl, mapped, read. unfold field in *.
  destruct (m !! nodeId) as [v|]; [|done]. simpl in *. by rewrite E.
Qed.

Lemma getApiAddressUrl_mapped_witness :
  getApiAddressUrl
    (Some (<[ "rp1" := VStr "http://10.0.0.1:8200" ]>
             {[ "idp9" := VStr "http://10.0.0.9:8100" ]})) "idp9"
  = Return (VStr "http://10.0.0.9:8100")
  ∧ getApiAddressUrl
      (Some (<[ "rp1" := VStr "http://10.0.0.1:8200" ]>
               {[ "idp9" := VStr "http://10.0.0.9:8100" ]})) "rp1"
    = Return (VStr "http://10.0.0.1:8200").
Proof.
  split.
  - exact (getApiAddressUrl_mapped
             (<[ "rp1" := VStr "http://10.0.0.1:8200" ]>
                {[ "idp9" := VStr "http://10.0.0.9:8100" ]}) "idp9" eq_refl).
  - exact (getApiAddressUrl_mapped
             (<[ "rp1" := VStr "http://10.0.0.1:8200" ]>
                {[ "idp9" := VStr "http://10.0.0.9:8100" ]}) "rp1" eq_refl).
Defined.

(** C9, as stated, fails: a node id that is none of the ten built-in ids
    and has no entry in [nodeIdMappingAddress] need not make
    [getApiAddressUrl] throw.  With the mapping configured as the empty
    object, the id ['constructor'] reads the inherited function [Object],
    which is truthy and is returned. *)
Lemma getApiAddressUrl_inherited_member :
  ¬ (∀ (nma : option (gmap string value)) (nodeId : string),
       nodeId ∉ [ "rp1"; "rp2"; "idp1"; "idp2"; "idp3"; "as1"; "as2";
                  "ndid1"; "proxy1"; "proxy2" ] →
       (∀ m, nma = Some m → truthy (field m nodeId) = false) →
       getApiAddressUrl nma nodeId = Throw (Error "Unsupported Node ID")).
Proof.
  intros H. specialize (H (Some ∅) "constructor").
  assert (E : getApiAddressUrl (Some ∅) "constructor"
              = Return (VFun "Object")) by (vm_compute; reflexivity).
  rewrite E in H. enough (Return (VFun "Object")
                          = Throw (Error "Unsupported Node ID")) by done.
  apply H.
  - intros Hin.
    repeat (apply elem_of_cons in Hin as [Hin|Hin]; [discriminate Hin|]).
    by apply elem_of_nil in Hin.
  - intros m [= <-]. vm_compute. reflexivity.
Qed.

(** C9, amended. A node id that is none of the ten built-in ids, has no
    truthy entry in [nodeIdMappingAddress] and, where the configured
    mapping has no entry of that name at all, is not the name of a member
    inherited from [Object.prototype], makes [getApiAddressUrl] throw
    [Error('Unsupported Node ID')]; no URL is returned. *)
Theorem getApiAddressUrl_unsupported (nma : option (gmap string value))
    (nodeId : string) :
  nodeId ∉ [ "rp1"; "rp2"; "idp1"; "idp2"; "idp3"; "as1"; "as2"; "ndid1";
             "proxy1"; "proxy2" ] →
  (∀ m, nma = Some m →
     truthy (field m nodeId) = false
     ∧ (m !! nodeId = None → inherited nodeId = VUndefined)) →
  getApiAddressUrl nma nodeId = Throw (Error "Unsupported Node ID").
Proof.
  intros Hout Hfalsy.
  rewrite getApiAddressUrl_unmapped by by apply mapped_falsy.
  clear Hfalsy. unfold getApiAddressUrl. simpl.
  repeat match goal with
  | |- context [String.eqb nodeId ?s] =>
      destruct (String.eqb_spec nodeId s) as [->|_];
      [exfalso; apply Hout; set_solver|]
  end.
  reflexivity.
Qed.

Lemma getApiAddressUrl_unsupported_witness :
  getApiAddressUrl (Some {[ "rp3" := VStr "" ]}) "rp3"
  = Throw (Error "Unsupported Node ID")
  ∧ getApiAddressUrl (Some {[ "idp9" := VStr "http://10.0.0.9:8100" ]}) "rp3"
    = Throw (Error "Unsupported Node ID").
Proof.
  split; apply getApiAddressUrl_unsupported.
  - intros H. repeat (apply elem_of_cons in H as [H|H]; [discriminate H|]).
    by apply elem_of_nil in H.
  - intros m [= <-]. split; [vm_compute; reflexivity | intros _; reflexivity].
  - intros H. repeat (apply elem_of_cons in H as [H|H]; [discriminate H|]).
    by apply elem_of_nil in H.
  - intros m [= <-]. split; [vm_compute; reflexivity | intros _; reflexivity].
Defined.

(** An entry that is present but falsy (here the empty string) does not
    count: the built-in address is used. *)
Example getApiAddressUrl_falsy_entry :
  getApiAddressUrl (Some {[ "rp1" := VStr "" ]}) "rp1"
  = Return (VStr "http://localhost:8200").
Proof. vm_compute. reflexivity. Qed.

Example getApiAddressUrl_not_configured :
  getApiAddressUrl None "ndid1" = Return (VStr "http://localhost:8080")
  ∧ getApiAddressUrl None "ndid2" = Throw (Error "Unsupported Node ID").
Proof. split; reflexivity. Qed.

End HelpersSpec.

(** ** The [fetch] wrappers *)

Module FetchSpec.
Import Helpers.

(** C6. [httpPost(url, body)] issues one request: a POST to [url] whose
    headers are exactly [Accept: application/json] and
    [Content-Type: application/json] and whose body is
    [JSON.stringify(body)]; [httpGet(url)] issues one request: a GET to
    [url] whose only header is [Accept: application/json] and which has no
    body.  Each returns whatever [fetch] settles to. *)
Theorem httpPost_httpGet_request
    (JSON_stringify : value → option string)
    (respond : network → string → init → completion value)
    (url : string) (payload : value) (net : network) :
  (∃ i : init,
     httpPost JSON_stringify respond url payload net
       = (respond net url i, net ++ [(url, i)])
     ∧ method i = "POST"
     ∧ headers i !! "Accept" = Some "application/json"
     ∧ headers i !! "Content-Type" = Some "application/json"
     ∧ dom (headers i) = ({[ "Accept"; "Content-Type" ]} : gset string)
     ∧ body i = JSON_stringify payload)
  ∧ (∃ i : init,
     httpGet respond url net = (respond net url i, net ++ [(url, i)])
     ∧ method i = "GET"
     ∧ headers i !! "Accept" = Some "application/json"
     ∧ dom (headers i) = ({[ "Accept" ]} : gset string)
     ∧ body i = None).
Proof.
  split.
  - eexists. split; [reflexivity|]. simpl.
    split_and!; reflexivity.
  - eexists. split; [reflexivity|]. simpl.
    split_and!; reflexivity.
Qed.

End FetchSpec.

(** ** The top-level [before] hook *)

Module IndexSpec.
Import Index.

Lemma checkForAvailableNodes_run (avail : string → value) (s : state) :
  checkForAvailableNodes avail s =
  (Return tt,
   State (avail "ndid1") (avail "rp1") (avail "idp1") (avail "idp2")
         (avail "as1") (avail "as2") (avail "proxy1") (avail "proxy2")
         (calls s ++ map IsNodeAvailable
            ["ndid1"; "rp1"; "idp1"; "idp2"; "as1"; "as2"; "proxy1"; "proxy2"])).
Proof.
  destruct s as [f1 f2 f3 f4 f5 f6 f7 f8 cs].
  unfold checkForAvailableNodes, isNodeAvailable, do_call, modify, mbind,
    M_bind, mret, M_ret. cbn.
  by rewrite <- !app_assoc.
Qed.

Lemma before_run (avail : string → value) (crypto : value) (s : state) :
  before avail crypto s =
  (if negb (truthy (avail "rp1")) || negb (truthy (avail "idp1"))
   then Throw (Error "Could not connect to RP and IdP-1 nodes")
   else Return tt,
   State (avail "ndid1") (avail "rp1") (avail "idp1") (avail "idp2")
         (avail "as1") (avail "as2") (avail "proxy1") (avail "proxy2")
         (calls s
          ++ (StartCallbackServers ::
              if truthy crypto then [StartDpkiCallbackServer] else [])
          ++ map IsNodeAvailable
               ["ndid1"; "rp1"; "idp1"; "idp2"; "as1"; "as2"; "proxy1";
                "proxy2"])).
Proof.
  destruct s as [f1 f2 f3 f4 f5 f6 f7 f8 cs].
  unfold before. unfold mbind at 1, M_bind at 1. cbn.
  unfold mbind at 1, M_bind at 1.
  destruct (truthy crypto); cbn;
    unfold mbind at 1, M_bind at 1;
    rewrite checkForAvailableNodes_run; cbn;
    rewrite <- ?app_assoc; cbn;
    unfold mbind, M_bind, gets; cbn;
    by destruct (negb (truthy (avail "rp1")) || negb (truthy (avail "idp1"))).
Qed.

(** C5. The top-level [before] hook asks [isNodeAvailable] about exactly
    the eight nodes ndid1, rp1, idp1, idp2, as1, as2, proxy1, proxy2, stores
    each answer in the exported flag of the same node, and throws
    [Error('Could not connect to RP and IdP-1 nodes')] if and only if the
    answer for rp1 or for idp1 is falsy; otherwise it returns, whatever the
    answers for the other six nodes are. *)
Theorem before_available_nodes (avail : string → value) (crypto : value)
    (s : state) :
  let s' := exec (before avail crypto) s in
  (∃ started,
     calls s' = calls s ++ started ++ map IsNodeAvailable
       ["ndid1"; "rp1"; "idp1"; "idp2"; "as1"; "as2"; "proxy1"; "proxy2"]
     ∧ ∀ c, c ∈ started → c = StartCallbackServers ∨ c = StartDpkiCallbackServer)
  ∧ ndidAvailable s' = avail "ndid1" ∧ rpAvailable s' = avail "rp1"
  ∧ idp1Available s' = avail "idp1" ∧ idp2Available s' = avail "idp2"
  ∧ as1Available s' = avail "as1" ∧ as2Available s' = avail "as2"
  ∧ proxy1Available s' = avail "proxy1" ∧ proxy2Available s' = avail "proxy2"
  ∧ (outcome (before avail crypto) s
       = Throw (Error "Could not connect to RP and IdP-1 nodes")
     ↔ truthy (avail "rp1") = false ∨ truthy (avail "idp1") = false)
  ∧ (outcome (before avail crypto) s = Return tt
     ↔ truthy (avail "rp1") = true ∧ truthy (avail "idp1") = true).
Proof.
  unfold exec, outcome. rewrite before_run.
  cbn [fst snd calls ndidAvailable rpAvailable idp1Available idp2Available
       as1Available as2Available proxy1Available proxy2Available].
  split.
  { eexists. split; [reflexivity|].
    intros c [->|Hc]%elem_of_cons; [by left|right].
    destruct (truthy crypto);
      [by apply list_elem_of_singleton in Hc | by apply elem_of_nil in Hc]. }
  repeat (split; [reflexivity|]).
  destruct (truthy (avail "rp1")), (truthy (avail "idp1")); cbn;
    split; split; try discriminate; try tauto; intuition discriminate.
Qed.

Example before_rp1_down :
  outcome (before (λ n, VBool (negb (String.eqb n "rp1"))) (VBool false))
    initial
  = Throw (Error "Could not connect to RP and IdP-1 nodes").
Proof. reflexivity. Qed.

Example before_only_rp1_idp1_up :
  before (λ n, VBool (String.eqb n "rp1" || String.eqb n "idp1"))
    (VBool true) initial
  = (Return tt,
     State (VBool false) (VBool true) (VBool true) (VBool false)
           (VBool false) (VBool false) (VBool false) (VBool false)
           [ StartCallbackServers; StartDpkiCallbackServer;
             IsNodeAvailable "ndid1"; IsNodeAvailable "rp1";
             IsNodeAvailable "idp1"; IsNodeAvailable "idp2";
             IsNodeAvailable "as1"; IsNodeAvailable "as2";
             IsNodeAvailable "proxy1"; IsNodeAvailable "proxy2" ]).
Proof. reflexivity. Qed.

End IndexSpec.

(** ** Listeners of the enable-service-destination test *)

Module EnableServiceDestinationSpec.
Import EnableServiceDestination.

Lemma rp_callback_run rpRef cb s :
  rp_callback rpRef cb s =
  (Return tt,
   State (requestId s)
     (resolved s ++
      if strict_eq (field cb "type") (VStr "create_request_result")
         && strict_eq (field cb "reference_id") rpRef
      then [(createRequestResultPromise, cb)] else [])).
Proof.
  unfold rp_callback.
  destruct (_ && _); [reflexivity|].
  destruct s; simpl. by rewrite app_nil_r.
Qed.

Lemma idp1_callback_run idpRef cb s :
  idp1_callback idpRef cb s =
  (Return tt,
   State (requestId s)
     (resolved s ++
      if strict_eq (field cb "type") (VStr "incoming_request")
         && strict_eq (field cb "request_id") (requestId s)
      then [(incomingRequestPromise, cb)]
      else if strict_eq (field cb "type") (VStr "response_result")
              && strict_eq (field cb "reference_id") idpRef
      then [(responseResultPromise, cb)] else [])).
Proof.
  unfold idp1_callback, mbind, M_bind, gets.
  repeat (destruct (_ && _); [reflexivity|]).
  destruct s; simpl. by rewrite app_nil_r.
Qed.

Lemma as1_callback_run asRef cb s :
  as1_callback asRef cb s =
  (Return tt,
   State (requestId s)
     (resolved s ++
      if strict_eq (field cb "type") (VStr "data_request")
         && strict_eq (field cb "request_id") (requestId s)
      then [(dataRequestReceivedPromise, cb)]
      else if strict_eq (field cb "type") (VStr "send_data_result")
              && strict_eq (field cb "reference_id") asRef
      then [(sendDataResultPromise, cb)] else [])).
Proof.
  unfold as1_callback, mbind, M_bind, gets.
  destruct (_ && _); [reflexivity|].
  destruct (strict_eq (field cb "type") (VStr "send_data_result")); simpl;
    [destruct (strict_eq (field cb "reference_id") asRef); [reflexivity|]|];
    destruct s; simpl; by rewrite app_nil_r.
Qed.

Lemma newly_resolved_drop (l : obj → M state unit) s cb rid new :
  l cb s = (Return tt, State rid (resolved s ++ new)) →
  newly_resolved l s cb = new.
Proof.
  intros E. unfold newly_resolved, exec. rewrite E. simpl.
  by rewrite drop_app_length.
Qed.

(** C2. Each event promise of the enable-service-destination test is
    resolved only by the callback designated for it: the RP listener
    resolves [createRequestResultPromise] exactly on type
    'create_request_result' with [reference_id === rpReferenceId]; the IdP
    listener resolves [incomingRequestPromise] exactly on type
    'incoming_request' with [request_id === requestId] and
    [responseResultPromise] exactly on type 'response_result' with
    [reference_id === idpReferenceId]; the AS listener resolves
    [dataRequestReceivedPromise] exactly on type 'data_request' with
    [request_id === requestId] and [sendDataResultPromise] exactly on type
    'send_data_result' with [reference_id === asServiceReferenceId].  The
    data passed is the callback itself, and any other callback resolves
    nothing. *)
Theorem listeners_resolve_designated (rpRef idpRef asRef : value)
    (s : state) (cb : obj) :
  (∀ p d, (p, d) ∈ newly_resolved (rp_callback rpRef) s cb ↔
     d = cb ∧ p = createRequestResultPromise
     ∧ field cb "type" = VStr "create_request_result"
     ∧ strict_eq (field cb "reference_id") rpRef = true)
  ∧ (∀ p d, (p, d) ∈ newly_resolved (idp1_callback idpRef) s cb ↔
       d = cb
       ∧ (p = incomingRequestPromise
          ∧ field cb "type" = VStr "incoming_request"
          ∧ strict_eq (field cb "request_id") (requestId s) = true
          ∨ p = responseResultPromise
            ∧ field cb "type" = VStr "response_result"
            ∧ strict_eq (field cb "reference_id") idpRef = true))
  ∧ (∀ p d, (p, d) ∈ newly_resolved (as1_callback asRef) s cb ↔
       d = cb
       ∧ (p = dataRequestReceivedPromise
          ∧ field cb "type" = VStr "data_request"
          ∧ strict_eq (field cb "request_id") (requestId s) = true
          ∨ p = sendDataResultPromise
            ∧ field cb "type" = VStr "send_data_result"
            ∧ strict_eq (field cb "reference_id") asRef = true)).
Proof.
  rewrite (newly_resolved_drop _ _ _ _ _ (rp_callback_run rpRef cb s)).
  rewrite (newly_resolved_drop _ _ _ _ _ (idp1_callback_run idpRef cb s)).
  rewrite (newly_resolved_drop _ _ _ _ _ (as1_callback_run asRef cb s)).
  split_and!; intros p d.
  - destruct (strict_eq (field cb "type") _) eqn:Et; simpl;
      [destruct (strict_eq (field cb "reference_id") rpRef) eqn:Er|];
      decide_resolved.
  - destruct (strict_eq (field cb "type") (VStr "incoming_request")) eqn:Et;
      simpl;
      [destruct (strict_eq (field cb "request_id") (requestId s)) eqn:Er;
       simpl|];
      [| destruct (strict_eq (field cb "type") (VStr "response_result"))
           eqn:Et'; simpl;
         [destruct (strict_eq (field cb "reference_id") idpRef) eqn:Er'|]..];
      decide_resolved.
  - destruct (strict_eq (field cb "type") (VStr "data_request")) eqn:Et;
      simpl;
      [destruct (strict_eq (field cb "request_id") (requestId s)) eqn:Er;
       simpl|];
      [| destruct (strict_eq (field cb "type") (VStr "send_data_result"))
           eqn:Et'; simpl;
         [destruct (strict_eq (field cb "reference_id") asRef) eqn:Er'|]..];
      decide_resolved.
Qed.

(** What the emitters run on a callback is the listener functions above:
    after [before] on fresh emitters, emitting 'callback' on the RP emitter
    runs [rp_callback]. *)
Lemma emit_all_singleton {S A} (l : A → M S unit) (data : A) (s : S) :
  emit_all [l] data s = l data s.
Proof.
  unfold emit_all, mbind, M_bind. by destruct (l data s) as [[[]|e] s'].
Qed.

Example emit_rp_callback (r1 r2 r3 : value) (cb : obj) (s : state) :
  emit_all
    (listeners
       (exec (before r1 r2 r3 (VBool true) (VBool true) (VBool true) (λ l, l))
          (Server (λ _, ∅) VUndefined))
       rpEventEmitter "callback") cb s
  = rp_callback r1 cb s.
Proof.
  change (listeners _ rpEventEmitter "callback") with [rp_callback r1].
  apply emit_all_singleton.
Qed.

End EnableServiceDestinationSpec.

(** ** The RP listener of the too-large-AS-data test *)

Module TooLargeAsDataSpec.
Import TooLargeAsData.






(** The run behind the counterexample: the update is recorded, then the
    read of [service_list[0]] throws. *)
Example rp_confirmed_type_error :
  rp_callback (VStr "ref-rp")
    (<[ "type" := VStr "request_status" ]>
     (<[ "request_id" := VStr "req-1" ]>
      {[ "status" := VStr "confirmed" ]}))
    (State (VStr "req-1") [] [] [])
  = (Throw (TypeError "Cannot read property '0' of undefined"),
     State (VStr "req-1")
       [ <[ "type" := VStr "request_status" ]>
         (<[ "request_id" := VStr "req-1" ]>
          {[ "status" := VStr "confirmed" ]}) ] [] []).
Proof. vm_compute. reflexivity. Qed.


End TooLargeAsDataSpec.

(** ** The RP listener of the 2-IdP mode-1 verify-identity test *)

Module TwoIdpAcceptRejectMode1Spec.
Import TwoIdpAcceptRejectMode1.

Lemma rp_callback_updates_run rpRef closeRef cb s :
  field cb "type" = VStr "request_status" →
  strict_eq (field cb "request_id") (requestId s) = true →
  rp_callback rpRef closeRef cb s =
  (Return tt,
   State (requestId s) (requestStatusUpdates s ++ [cb])
     (resolved s ++
      if strict_eq (field cb "status") (VStr "pending")
      then [(requestStatusPendingPromise, cb)]
      else if strict_eq (field cb "status") (VStr "confirmed")
      then [(requestStatusConfirmedPromise, cb)]
      else if strict_eq (field cb "status") (VStr "complicated")
      then (if truthy (field cb "closed")
            then [(requestClosedPromise, cb)] else [])
           ++ [(requestStatusComplicatedPromise, cb)]
      else [])).
Proof.
  intros Ht Hr. destruct s as [rid ups res]. simpl in Hr.
  unfold rp_callback, mbind, M_bind, gets. simpl.
  rewrite Ht, Hr. simpl.
  destruct (strict_eq (field cb "status") (VStr "pending")); [reflexivity|].
  destruct (strict_eq (field cb "status") (VStr "confirmed")); [reflexivity|].
  destruct (strict_eq (field cb "status") (VStr "complicated")).
  - destruct (truthy (field cb "closed")); [|reflexivity].
    unfold when_, resolve, modify. cbn. by rewrite <- app_assoc.
  - by rewrite app_nil_r.
Qed.

(** C4. In the 2-IdP mode-1 verify-identity test, a 'request_status'
    callback whose [request_id] is the current [requestId] is always
    appended to [requestStatusUpdates], whatever its status; when its
    status is 'complicated' it resolves [requestStatusComplicatedPromise],
    and when in addition its [closed] field is true (truthy) the same
    callback resolves [requestClosedPromise] and then
    [requestStatusComplicatedPromise]. *)
Theorem rp_complicated_and_updates (rpRef closeRef : value) (s : state)
    (cb : obj) :
  field cb "type" = VStr "request_status" →
  strict_eq (field cb "request_id") (requestId s) = true →
  outcome (rp_callback rpRef closeRef cb) s = Return tt
  ∧ requestStatusUpdates (exec (rp_callback rpRef closeRef cb) s)
    = requestStatusUpdates s ++ [cb]
  ∧ (field cb "status" = VStr "complicated" →
     (requestStatusComplicatedPromise, cb)
       ∈ newly_resolved (rp_callback rpRef closeRef) s cb
     ∧ (truthy (field cb "closed") = true →
        newly_resolved (rp_callback rpRef closeRef) s cb
        = [(requestClosedPromise, cb); (requestStatusComplicatedPromise, cb)])
     ∧ (truthy (field cb "closed") = false →
        newly_resolved (rp_callback rpRef closeRef) s cb
        = [(requestStatusComplicatedPromise, cb)])).
Proof.
  intros Ht Hr.
  unfold newly_resolved, outcome, exec.
  rewrite (rp_callback_updates_run _ _ _ _ Ht Hr). simpl.
  split_and!; try reflexivity.
  intros Hs. rewrite Hs. simpl. rewrite drop_app_length.
  destruct (truthy (field cb "closed")); simpl;
    split_and!; try done; set_solver.
Qed.

Lemma rp_complicated_and_updates_witness :
  newly_resolved (rp_callback (VStr "ref-rp") (VStr "ref-close"))
    (State (VStr "req-1") [] [])
    (<[ "type" := VStr "request_status" ]>
     (<[ "request_id" := VStr "req-1" ]>
     (<[ "status" := VStr "complicated" ]>
      {[ "closed" := VBool true ]})))
  = [ (requestClosedPromise,
       <[ "type" := VStr "request_status" ]>
       (<[ "request_id" := VStr "req-1" ]>
       (<[ "status" := VStr "complicated" ]>
        {[ "closed" := VBool true ]})));
      (requestStatusComplicatedPromise,
       <[ "type" := VStr "request_status" ]>
       (<[ "request_id" := VStr "req-1" ]>
       (<[ "status" := VStr "complicated" ]>
        {[ "closed" := VBool true ]}))) ].
Proof.
  exact (proj1 (proj2 (proj2 (proj2
    (rp_complicated_and_updates (VStr "ref-rp") (VStr "ref-close")
       (State (VStr "req-1") [] [])
       (<[ "type" := VStr "request_status" ]>
        (<[ "request_id" := VStr "req-1" ]>
        (<[ "status" := VStr "complicated" ]>
         {[ "closed" := VBool true ]})))
       eq_refl eq_refl)) eq_refl)) eq_refl).
Defined.

End TwoIdpAcceptRejectMode1Spec.

(** ** Listener registration and removal *)

Module HooksSpec.

Section Emitters.

Context {L : Type}.
Implicit Types (sv : server L) (e : emitter) (name : string) (l : L).

Lemma listeners_on sv e name l e' name' :
  listeners (exec (on e name l) sv) e' name' =
  if decide (e = e' ∧ name = name') then listeners sv e name ++ [l]
  else listeners sv e' name'.
Proof.
  unfold listeners, exec, on, modify. simpl.
  case_decide as H.
  - destruct H as [<- <-]. by rewrite fn_lookup_insert, lookup_insert_eq.
  - destruct (decide (e = e')) as [<-|Hne].
    + rewrite fn_lookup_insert, lookup_insert_ne; [done|]. naive_solver.
    + by rewrite fn_lookup_insert_ne.
Qed.

Lemma listeners_removeAllListeners sv e name e' name' :
  listeners (exec (removeAllListeners e name) sv) e' name' =
  if decide (e = e' ∧ name = name') then [] else listeners sv e' name'.
Proof.
  unfold listeners, exec, removeAllListeners, modify. simpl.
  case_decide as H.
  - destruct H as [<- <-]. by rewrite fn_lookup_insert, lookup_delete_eq.
  - destruct (decide (e = e')) as [<-|Hne].
    + rewrite fn_lookup_insert, lookup_delete_ne; [done|]. naive_solver.
    + by rewrite fn_lookup_insert_ne.
Qed.

Lemma listeners_setAsSendDataThroughCallback sv v e name :
  listeners (exec (setAsSendDataThroughCallback v) sv) e name
  = listeners sv e name.
Proof. reflexivity. Qed.

Lemma exec_on_seq sv e name l (k : M (server L) unit) :
  exec (on e name l;; k) sv = exec k (exec (on e name l) sv).
Proof. reflexivity. Qed.

Lemma exec_removeAllListeners_seq sv e name (k : M (server L) unit) :
  exec (removeAllListeners e name;; k) sv
  = exec k (exec (removeAllListeners e name) sv).
Proof. reflexivity. Qed.

Lemma exec_setAsSendDataThroughCallback_seq sv v (k : M (server L) unit) :
  exec (setAsSendDataThroughCallback v;; k) sv
  = exec k (exec (setAsSendDataThroughCallback v) sv).
Proof. reflexivity. Qed.

(** A guard that throws leaves the server as it found it. *)
Lemma exec_guard_seq sv (b : bool) (x : exn) (k : M (server L) unit) :
  exec (when_ b (throw x);; k) sv = if b then sv else exec k sv.
Proof. by destruct b. Qed.

End Emitters.

Ltac run_hook :=
  unfold skip in *;
  repeat first
    [ rewrite exec_guard_seq in *
    | rewrite exec_on_seq in *
    | rewrite exec_removeAllListeners_seq in *
    | rewrite exec_setAsSendDataThroughCallback_seq in * ];
  rewrite ?listeners_on, ?listeners_removeAllListeners,
    ?listeners_setAsSendDataThroughCallback in *.

(** Settles [subscribes before e name → clears after e name] for hooks
    that are guards followed by [on] calls, and [removeAllListeners] calls:
    either the key is one that [after] clears, or [before] never touches
    it. *)
Tactic Notation "subscribed_then_cleared" reference(before) reference(after) :=
  intros [sv Hsub] sv';
  unfold after; unfold before in Hsub;
  run_hook;
  repeat match type of Hsub with
  | context [if ?b then sv else _] => destruct b; [done|]
  end;
  rewrite ?listeners_on in Hsub;
  repeat case_decide; try done; naive_solver.

(** C10. The [after] hook of each test file removes all listeners of
    every event name on every emitter that the file's [before] hook
    subscribes to ('callback', and 'accessor_sign_callback' where used), so
    no listener of the file remains there once the file is done.  This
    holds from any state of the emitters, also when [before] stopped early
    (skip, or no identity to use). *)
Theorem after_removes_subscribed {L : Type} (e : emitter) (name : string) :
  (∀ r1 r2 r3 f1 f2 f3 (listener : _ → L),
     subscribes (EnableServiceDestination.before r1 r2 r3 f1 f2 f3 listener)
       e name →
     clears (@EnableServiceDestination.after L) e name)
  ∧ (∀ r1 r2 r3 d ids (listener : _ → L),
     subscribes (TooLargeAsData.before r1 r2 r3 d ids listener) e name →
     clears (@TooLargeAsData.after L) e name)
  ∧ (∀ r1 r2 f (listener : _ → L),
     subscribes (TwoIdpAcceptRejectMode1.before r1 r2 f listener) e name →
     clears (@TwoIdpAcceptRejectMode1.after L) e name)
  ∧ (∀ r1 r2 f ids (listener : _ → L),
     subscribes (SecondIdp.before r1 r2 f ids listener) e name →
     clears (@SecondIdp.after L) e name)
  ∧ (∀ r (listener : _ → L),
     subscribes (EnableNamespace.before r listener) e name →
     clears (@EnableNamespace.after L) e name).
Proof.
  split_and!; intros.
  - revert H.
    subscribed_then_cleared EnableServiceDestination.before EnableServiceDestination.after.
  - revert H.
    subscribed_then_cleared TooLargeAsData.before TooLargeAsData.after.
  - revert H.
    subscribed_then_cleared TwoIdpAcceptRejectMode1.before TwoIdpAcceptRejectMode1.after.
  - revert H.
    subscribed_then_cleared SecondIdp.before SecondIdp.after.
  - revert H.
    subscribed_then_cleared EnableNamespace.before EnableNamespace.after.
Qed.

Lemma after_removes_subscribed_witness :
  clears (@EnableServiceDestination.after
            (obj → M EnableServiceDestination.state unit))
         idp1EventEmitter "callback"
  ∧ clears (@TooLargeAsData.after (obj → M TooLargeAsData.state unit))
           rpEventEmitter "callback"
  ∧ clears (@TwoIdpAcceptRejectMode1.after
              (obj → M TwoIdpAcceptRejectMode1.state unit))
           idp2EventEmitter "callback"
  ∧ clears (@SecondIdp.after (obj → M SecondIdp.state unit))
           idp2EventEmitter "accessor_sign_callback"
  ∧ clears (@EnableNamespace.after (obj → M EnableNamespace.state unit))
           idp1EventEmitter "accessor_sign_callback".
Proof.
  split_and!.
  - apply (proj1 (after_removes_subscribed idp1EventEmitter "callback")
             (VStr "r1") (VStr "r2") (VStr "r3")
             (VBool true) (VBool true) (VBool true) (λ l, l)).
    exists (Server (λ _, ∅) VUndefined). intros H.
    apply (f_equal length) in H. vm_compute in H. discriminate H.
  - apply (proj1 (proj2 (after_removes_subscribed rpEventEmitter "callback"))
             (VStr "r1") (VStr "r2") (VStr "r3") (VStr "00ff")
             [VObj ∅] (λ l, l)).
    exists (Server (λ _, ∅) VUndefined). intros H.
    apply (f_equal length) in H. vm_compute in H. discriminate H.
  - apply (proj1 (proj2 (proj2
             (after_removes_subscribed idp2EventEmitter "callback")))
             (VStr "r1") (VStr "r2") (VBool true) (λ l, l)).
    exists (Server (λ _, ∅) VUndefined). intros H.
    apply (f_equal length) in H. vm_compute in H. discriminate H.
  - apply (proj1 (proj2 (proj2 (proj2
             (after_removes_subscribed idp2EventEmitter
                "accessor_sign_callback"))))
             (VStr "r1") (VStr "r2") (VBool true) [VObj ∅] (λ l, l)).
    exists (Server (λ _, ∅) VUndefined). intros H.
    apply (f_equal length) in H. vm_compute in H. discriminate H.
  - apply (proj2 (proj2 (proj2 (proj2
             (after_removes_subscribed idp1EventEmitter
                "accessor_sign_callback"))))
             (VStr "r1") (λ l, l)).
    exists (Server (λ _, ∅) VUndefined). intros H.
    apply (f_equal length) in H. vm_compute in H. discriminate H.
Defined.

End HooksSpec.

(** ** Token balance around the reduce-token test *)

Module ReduceTokenFailTxSpec.
Import ReduceTokenFailTx.

Section Suite.

Context {W : Type}.
Variable getToken : string → M W response.
Variable setNodeToken : string → obj → M W response.
Variable transact : string → obj → M W response.
Variables ndidAvailable idp1Available accessorPublicKey : value.

Abbreviation before := (before W getToken ndidAvailable idp1Available).
Abbreviation tests := (tests W getToken setNodeToken transact accessorPublicKey).
Abbreviation after := (after W setNodeToken).
Abbreviation idp1_amount := (idp1_amount W getToken).
Abbreviation run_file :=
  (run_file W getToken setNodeToken transact ndidAvailable idp1Available
     accessorPublicKey).

Lemma keeps_bind {A B} (m : M (state W) A) (f : A → M (state W) B) :
  keeps m → (∀ a, keeps (f a)) → keeps (m ≫= f).
Proof.
  intros Hm Hf s. unfold mbind, M_bind. specialize (Hm s).
  destruct (m s) as [[a|e] s']; simpl in *; [|done].
  by rewrite Hf.
Qed.

Lemma keeps_api {A} (c : call) (m : M W A) : keeps (api W c m).
Proof. intros s. unfold api. by destruct (m (platform s)). Qed.

Lemma keeps_lift {A} (c : completion A) : keeps (W := W) (lift c).
Proof. done. Qed.

Lemma keeps_expect_equal (a b : value) :
  keeps (W := W) (expect_equal a b).
Proof. intros s. unfold expect_equal. by destruct (strict_eq a b). Qed.

Lemma keeps_wait (ms : Z) : keeps (W := W) (wait ms).
Proof. done. Qed.

Lemma keeps_flood (n : nat) (tx : obj) : keeps (flood W transact n tx).
Proof.
  induction n as [|n IH]; [done|].
  simpl. apply keeps_bind; [apply keeps_api | by intros _].
Qed.

Create HintDb keeps.
#[local] Hint Resolve keeps_api keeps_lift keeps_expect_equal keeps_wait
  keeps_flood : keeps.

Ltac keeps_steps :=
  repeat first
    [ apply keeps_bind; [|intros ?]
    | solve [eauto with keeps] ].

Lemma keeps_tests (t : M (state W) unit) : t ∈ tests → keeps t.
Proof.
  unfold ReduceTokenFailTx.tests.
  intros Hin. repeat (apply elem_of_cons in Hin as [->|Hin]).
  - unfold it_set_node_token, ndidApi_setNodeToken. keeps_steps.
  - unfold it_fail_tx_CheckTx. keeps_steps.
  - unfold it_token_after, commonApi_getToken. keeps_steps.
  - unfold it_fail_tx_DeliverTx. keeps_steps.
  - unfold it_token_after, commonApi_getToken. keeps_steps.
  - by apply elem_of_nil in Hin.
Qed.

Lemma run_tests_keeps (ts : list (M (state W) unit)) (s : state W) :
  (∀ t, t ∈ ts → keeps t) →
  nodeTokenBeforeTest (run_tests W ts s) = nodeTokenBeforeTest s.
Proof.
  revert s. induction ts as [|t ts IH]; intros s Hts; [done|].
  simpl. rewrite IH by (intros; apply Hts; set_solver).
  apply (Hts t). set_solver.
Qed.

Lemma before_returns (s : state W) :
  outcome before s = Return tt →
  ∃ a, idp1_amount (platform s) = Some a
       ∧ nodeTokenBeforeTest (exec before s) = a.
Proof.
  unfold outcome, exec, ReduceTokenFailTx.before,
    ReduceTokenFailTx.idp1_amount, skip, commonApi_getToken, api, mbind,
    M_bind, lift, when_.
  destruct (negb (truthy ndidAvailable) || negb (truthy idp1Available));
    simpl; [discriminate|].
  destruct (getToken "idp1" (platform s)) as [[r|e] w]; simpl;
    [|discriminate].
  destruct (json r) as [responseBody|e]; simpl; [|discriminate].
  destruct (get_prop responseBody "amount") as [a|e]; simpl; [|discriminate].
  intros _. by exists a.
Qed.

Lemma after_run (s : state W) :
  log (exec after s)
    = log s ++ [SetNodeToken "ndid1" (set_token_params (nodeTokenBeforeTest s))]
  ∧ platform (exec after s)
    = exec (setNodeToken "ndid1" (set_token_params (nodeTokenBeforeTest s)))
        (platform s).
Proof.
  unfold exec, ReduceTokenFailTx.after, ndidApi_setNodeToken, api, mbind,
    M_bind, gets, expect_equal, wait. simpl.
  destruct (setNodeToken _ _ (platform s)) as [[r|e] w]; simpl; [|done].
  by destruct (strict_eq (status r) (VNum 204)).
Qed.

(** C7, amended.  When its [before] hook completes (ndid1 and idp1 are
    available, [getToken('idp1')] answers and the amount is read from its
    body), the reduce-token test file restores idp1's token balance: the
    hook has recorded in [nodeTokenBeforeTest] the amount that
    [getToken('idp1')] reported, the tests never write that variable, and
    the [after] hook makes exactly one call,
    [setNodeToken('ndid1', {node_id: 'idp1', amount: nodeTokenBeforeTest})],
    which is the last call of the file and carries exactly the recorded
    amount.  So if [getToken('idp1')] reports, after that call, the amount
    the call wrote, idp1's balance after the file is its balance before
    the file. *)
Theorem token_balance_restored :
  (∀ s,
     log (exec after s)
       = log s ++
         [SetNodeToken "ndid1"
            (<[ "node_id" := VStr "idp1" ]>
               {[ "amount" := nodeTokenBeforeTest s ]})]
     ∧ platform (exec after s)
       = exec (setNodeToken "ndid1"
                 (<[ "node_id" := VStr "idp1" ]>
                    {[ "amount" := nodeTokenBeforeTest s ]}))
           (platform s))
  ∧ (∀ s, nodeTokenBeforeTest (run_tests W tests s) = nodeTokenBeforeTest s)
  ∧ (∀ s0,
       outcome before s0 = Return tt →
       ∃ a,
         let s2 := run_tests W tests (exec before s0) in
         let put_back :=
           setNodeToken "ndid1"
             (<[ "node_id" := VStr "idp1" ]> {[ "amount" := a ]}) in
         idp1_amount (platform s0) = Some a
         ∧ nodeTokenBeforeTest (exec before s0) = a
         ∧ log (run_file s0)
           = log s2 ++
             [SetNodeToken "ndid1"
                (<[ "node_id" := VStr "idp1" ]> {[ "amount" := a ]})]
         ∧ platform (run_file s0) = exec put_back (platform s2)
         ∧ (idp1_amount (exec put_back (platform s2)) = Some a →
            idp1_amount (platform (run_file s0))
            = idp1_amount (platform s0))).
Proof.
  split_and!.
  - apply after_run.
  - intros s. apply run_tests_keeps, keeps_tests.
  - intros s0 Hret.
    destruct (before_returns s0 Hret) as (a & Ha & Hrec).
    exists a. cbv zeta.
    assert (Hfile : run_file s0
                    = exec after (run_tests W tests (exec before s0))).
    { unfold ReduceTokenFailTx.run_file, exec. unfold outcome in Hret.
      destruct (before s0) as [[[]|e] s1]; simpl in *; [done|discriminate]. }
    rewrite Hfile.
    destruct (after_run (run_tests W tests (exec before s0))) as [-> ->].
    rewrite run_tests_keeps by apply keeps_tests.
    rewrite Hrec. split_and!; try done.
    intros Hlaw. rewrite Ha. exact Hlaw.
Qed.

End Suite.

(** The ledger platform answers [getToken] with what [setNodeToken] wrote. *)
Lemma ledger_set_then_get (w : gmap string value) (v : value) :
  idp1_amount _ Ledger.getToken
    (exec (Ledger.setNodeToken "ndid1"
             (<[ "node_id" := VStr "idp1" ]> {[ "amount" := v ]})) w)
  = Some v.
Proof.
  unfold idp1_amount, exec, Ledger.setNodeToken, Ledger.getToken, field.
  rewrite lookup_insert_eq. simpl.
  rewrite lookup_insert_eq. simpl.
  rewrite lookup_insert_ne by discriminate.
  rewrite lookup_singleton_eq. simpl.
  unfold field. by rewrite lookup_singleton_eq.
Qed.

(** On the ledger, starting from a balance of 1000: fifteen wrapper calls
    are made, the last one restores 1000. *)
Example ledger_run_log :
  let s3 :=
    exec (after _ Ledger.setNodeToken)
      (run_tests _
         (tests _ Ledger.getToken Ledger.setNodeToken Ledger.transact
            (VStr "-----BEGIN PUBLIC KEY-----"))
         (exec (before _ Ledger.getToken (VBool true) (VBool true))
            (initial _ Ledger.world))) in
  length (log s3) = 15%nat
  ∧ log s3 !! 14%nat
    = Some (SetNodeToken "ndid1"
              (<[ "node_id" := VStr "idp1" ]> {[ "amount" := VNum 1000 ]}))
  ∧ field (platform s3) "idp1" = VNum 1000.
Proof. vm_compute. done. Qed.

(** C7, as stated, fails: the file does not leave idp1's balance unchanged
    on every run.  With ndid1 available and idp1 not, the [before] hook
    skips the block and records nothing; the [after] hook still sends
    [setNodeToken] with the initial value 0 of [nodeTokenBeforeTest], and
    on the ledger the balance of idp1 goes from 1000 to 0. *)
Lemma token_balance_lost_when_before_skips :
  ¬ (∀ (ndidAvailable idp1Available : value) (w : gmap string value),
       idp1_amount _ Ledger.getToken
         (platform
            (run_file _ Ledger.getToken Ledger.setNodeToken Ledger.transact
               ndidAvailable idp1Available
               (VStr "-----BEGIN PUBLIC KEY-----") (initial _ w)))
       = idp1_amount _ Ledger.getToken w).
Proof.
  intros H. specialize (H (VBool true) (VBool false) Ledger.world).
  vm_compute in H. discriminate H.
Qed.

(** The run behind the counterexample: one call is made, and it writes 0. *)
Example ledger_skip_log :
  let s1 :=
    run_file _ Ledger.getToken Ledger.setNodeToken Ledger.transact
      (VBool true) (VBool false) (VStr "-----BEGIN PUBLIC KEY-----")
      (initial _ Ledger.world) in
  outcome (before _ Ledger.getToken (VBool true) (VBool false))
    (initial _ Ledger.world) = Throw (Pending "sync skip")
  ∧ log s1
    = [SetNodeToken "ndid1"
         (<[ "node_id" := VStr "idp1" ]> {[ "amount" := VNum 0 ]})]
  ∧ field (platform s1) "idp1" = VNum 0.
Proof. vm_compute. done. Qed.

Lemma token_balance_restored_witness :
  idp1_amount _ Ledger.getToken
    (platform
       (run_file _ Ledger.getToken Ledger.setNodeToken Ledger.transact
          (VBool true) (VBool true) (VStr "-----BEGIN PUBLIC KEY-----")
          (initial _ Ledger.world)))
  = idp1_amount _ Ledger.getToken (platform (initial _ Ledger.world)).
Proof.
  destruct (proj2 (proj2
              (token_balance_restored Ledger.getToken Ledger.setNodeToken
                 Ledger.transact (VBool true) (VBool true)
                 (VStr "-----BEGIN PUBLIC KEY-----")))
              (initial _ Ledger.world) eq_refl)
    as (a & _ & _ & _ & _ & Hbalance).
  apply Hbalance. apply ledger_set_then_get.
Defined.

End ReduceTokenFailTxSpec.

(** * Further properties of the sources *)

(** ** The node address table, continued *)

Module HelpersMore.
Import Helpers.

Ltac decide_node_id nodeId :=
  repeat match goal with
  | |- context [String.eqb nodeId ?s] =>
      destruct (String.eqb_spec nodeId s) as [->|?]
  | H : context [String.eqb nodeId ?s] |- _ =>
      destruct (String.eqb_spec nodeId s) as [->|?]
  end.

(** X1. Whatever the mapping and the node id, a URL that
    [getApiAddressUrl] returns is truthy: it never returns [undefined],
    [null], an empty string or another falsy entry of the mapping. *)
Theorem getApiAddressUrl_returns_truthy (nma : option (gmap string value))
    (nodeId : string) (url : value) :
  getApiAddressUrl nma nodeId = Return url → truthy url = true.
Proof.
  unfold getApiAddressUrl.
  destruct (truthy (mapped nma nodeId)) eqn:E.
  - by intros [= <-].
  - decide_node_id nodeId; intros [= <-]; reflexivity.
Qed.

Lemma getApiAddressUrl_returns_truthy_witness :
  truthy (VStr "http://localhost:8300") = true.
Proof.
  exact (getApiAddressUrl_returns_truthy
           (Some {[ "as1" := VNum 0 ]}) "as1"
           (VStr "http://localhost:8300") eq_refl).
Defined.

(** X2. [getApiAddressUrl] throws exactly when the value read from the
    mapping is falsy and the node id is none of the ten built-in ids, and
    the only exception it ever throws is [Error('Unsupported Node ID')].
    The read is falsy when no mapping is configured, when the id has a
    falsy own entry, and when it has no own entry and names no member of
    [Object.prototype]; an id without own entry that names such a member
    ('constructor', 'toString', '__proto__', ...) gets the member back
    instead of the exception. *)
Theorem getApiAddressUrl_throws_iff (nma : option (gmap string value))
    (nodeId : string) (e : exn) :
  (getApiAddressUrl nma nodeId = Throw e
   ↔ e = Error "Unsupported Node ID"
     ∧ truthy (mapped nma nodeId) = false
     ∧ nodeId ∉ [ "rp1"; "rp2"; "idp1"; "idp2"; "idp3"; "as1"; "as2";
                  "ndid1"; "proxy1"; "proxy2" ])
  ∧ (truthy (mapped nma nodeId) = false
     ↔ ∀ m, nma = Some m →
         truthy (field m nodeId) = false
         ∧ (m !! nodeId = None → inherited nodeId = VUndefined))
  ∧ (∀ m, nma = Some m → m !! nodeId = None →
       inherited nodeId ≠ VUndefined →
       getApiAddressUrl nma nodeId = Return (inherited nodeId)).
Proof.
  split_and!; [|apply HelpersSpec.mapped_falsy|].
  2:{ intros m -> Hno Hin. unfold getApiAddressUrl, mapped, read.
      rewrite Hno.
      destruct (HelpersSpec.inherited_truthy nodeId) as [H|H]; [done|].
      by rewrite H. }
  unfold getApiAddressUrl.
  destruct (truthy (mapped nma nodeId)) eqn:E.
  { split; [discriminate | intros (_ & ? & _); discriminate]. }
  decide_node_id nodeId;
    try (split; [discriminate | intros (_ & _ & Hout); exfalso; apply Hout;
                 set_solver]).
  split.
  - intros [= <-]. split_and!; try done.
    intros Hin. repeat (apply elem_of_cons in Hin as [->|Hin]; [done|]).
    by apply elem_of_nil in Hin.
  - by intros (-> & _ & _).
Qed.

(** With the empty object as mapping, the ids 'constructor', 'toString' and
    '__proto__' are answered with what the object inherits. *)
Example getApiAddressUrl_inherited_names :
  getApiAddressUrl (Some ∅) "constructor" = Return (VFun "Object")
  ∧ getApiAddressUrl (Some ∅) "toString" = Return (VFun "toString")
  ∧ getApiAddressUrl (Some ∅) "__proto__" = Return (VObj Object_prototype)
  ∧ getApiAddressUrl None "constructor" = Throw (Error "Unsupported Node ID")
  ∧ getApiAddressUrl (Some {[ "constructor" := VStr "" ]}) "constructor"
    = Throw (Error "Unsupported Node ID").
Proof. vm_compute. done. Qed.

(** X3. The built-in table gives every built-in node its own address: two
    of the ten ids that have no truthy mapping entry and get the same URL
    are the same id. *)
Theorem getApiAddressUrl_builtin_injective (nma : option (gmap string value))
    (a b : string) :
  a ∈ [ "rp1"; "rp2"; "idp1"; "idp2"; "idp3"; "as1"; "as2"; "ndid1";
        "proxy1"; "proxy2" ] →
  b ∈ [ "rp1"; "rp2"; "idp1"; "idp2"; "idp3"; "as1"; "as2"; "ndid1";
        "proxy1"; "proxy2" ] →
  truthy (mapped nma a) = false →
  truthy (mapped nma b) = false →
  getApiAddressUrl nma a = getApiAddressUrl nma b →
  a = b.
Proof.
  intros Ha Hb Ea Eb.
  unfold getApiAddressUrl. rewrite Ea, Eb. clear Ea Eb.
  repeat (apply elem_of_cons in Ha as [->|Ha]);
    try (by apply elem_of_nil in Ha);
    repeat (apply elem_of_cons in Hb as [->|Hb]);
    try (by apply elem_of_nil in Hb);
    first [reflexivity | intros H; vm_compute in H; discriminate H].
Qed.

Lemma getApiAddressUrl_builtin_injective_witness : "idp2" = "idp2".
Proof.
  apply (getApiAddressUrl_builtin_injective
           (Some {[ "rp1" := VStr "http://10.0.0.1:8200" ]}) "idp2" "idp2").
  - do 3 apply list_elem_of_further. apply list_elem_of_here.
  - do 3 apply list_elem_of_further. apply list_elem_of_here.
  - vm_compute. reflexivity.
  - vm_compute. reflexivity.
  - reflexivity.
Defined.

(** X4. [httpDelte(url)] issues one request: a DELETE to [url] whose only
    header is [Accept: application/json] and which has no body.  None of
    the three wrappers touches the requests issued before; each adds
    exactly one, and only [httpPost] ever sends a [Content-Type] header or
    a body. *)
Theorem wrappers_one_request
    (JSON_stringify : value → option string)
    (respond : network → string → init → completion value)
    (url : string) (payload : value) (net : network) :
  (∃ i : init,
     httpDelte respond url net = (respond net url i, net ++ [(url, i)])
     ∧ method i = "DELETE"
     ∧ headers i !! "Accept" = Some "application/json"
     ∧ dom (headers i) = ({[ "Accept" ]} : gset string)
     ∧ body i = None)
  ∧ (∀ m, m ∈ [ httpGet respond url; httpDelte respond url;
                httpPost JSON_stringify respond url payload ] →
     ∃ i, exec m net = net ++ [(url, i)]
          ∧ (headers i !! "Content-Type" ≠ None ∨ body i ≠ None →
             method i = "POST")).
Proof.
  split.
  - eexists. split; [reflexivity|]. simpl. split_and!; reflexivity.
  - intros m Hm.
    repeat (apply elem_of_cons in Hm as [->|Hm]);
      try (by apply elem_of_nil in Hm);
      (eexists; split; [reflexivity|]); simpl;
      try reflexivity; intros [H|H]; by destruct H.
Qed.

End HelpersMore.

(** ** The top-level hooks, start and stop *)

Module IndexMore.

(** X5. The top-level hooks are symmetric: [before] starts the DPKI
    callback server exactly when [after] stops it, namely when
    [config.USE_EXTERNAL_CRYPTO_SERVICE] is truthy; the callback servers
    themselves are started first and stopped first in every case, also
    when [before] ends by throwing. *)
Theorem dpki_started_iff_stopped (avail : string → value) (crypto : value)
    (stopped : list IndexAfter.call) :
  let started := Index.calls (exec (Index.before avail crypto) Index.initial) in
  let stopped' := exec (IndexAfter.after crypto) stopped in
  (Index.StartDpkiCallbackServer ∈ started ↔ truthy crypto = true)
  ∧ (IndexAfter.StopDpkiCallbackServer ∈ drop (length stopped) stopped'
     ↔ truthy crypto = true)
  ∧ head started = Some Index.StartCallbackServers
  ∧ stopped' !! length stopped = Some IndexAfter.StopCallbackServers
  ∧ outcome (IndexAfter.after crypto) stopped = Return tt.
Proof.
  intros started stopped'. subst started stopped'.
  unfold exec, outcome. rewrite IndexSpec.before_run.
  unfold IndexAfter.after, mbind, M_bind, modify, when_. simpl.
  destruct (truthy crypto); simpl.
  - split_and!; try done.
    + split; [done|]. intros _. set_solver.
    + rewrite <- app_assoc, drop_app_length. split; [done|]. set_solver.
    + rewrite <- app_assoc. simpl. by rewrite list_lookup_middle.
  - split_and!; try done.
    + split; [|done].
      intros H. repeat (apply elem_of_cons in H as [H|H]; [discriminate H|]).
      by apply elem_of_nil in H.
    + rewrite drop_app_length. split; [|done].
      intros H. apply list_elem_of_singleton in H. discriminate H.
    + by rewrite list_lookup_middle.
Qed.

End IndexMore.

(** ** The hooks and the listener tables *)

Module HooksMore.
Import HooksSpec.

#[local] Set Warnings "-clear-no-such-hyp".

Ltac settle_registered :=
  unfold registered; simpl;
  repeat case_decide; destruct_and?; simplify_eq;
  rewrite ?app_nil_r, <- ?app_assoc; try done;
  exfalso; naive_solver.

Tactic Notation "hook_registers" reference(before) "by" tactic3(guards) :=
  intros sv; split;
  [ unfold before; guards; reflexivity
  | intros e name; unfold before; run_hook; guards; simpl;
    rewrite ?listeners_on, ?listeners_setAsSendDataThroughCallback;
    settle_registered ].

(** X6. When its guards pass, the [before] hook of each of the five test
    files returns and registers exactly its own listeners, one per
    subscribed event, each appended behind the listeners already kept for
    that event; the lists of all other events stay as they are. *)
Theorem before_registers {L : Type} :
  (∀ r1 r2 r3 f1 f2 f3 (listener : _ → L),
     truthy f1 = true → truthy f2 = true → truthy f3 = true →
     registers (EnableServiceDestination.before r1 r2 r3 f1 f2 f3 listener)
       [ (rpEventEmitter, "callback",
          listener (EnableServiceDestination.rp_callback r1));
         (idp1EventEmitter, "callback",
          listener (EnableServiceDestination.idp1_callback r2));
         (as1EventEmitter, "callback",
          listener (EnableServiceDestination.as1_callback r3)) ])
  ∧ (∀ r1 r2 r3 d ids (listener : _ → L),
     loose_eq_null (default VUndefined (head ids)) = false →
     registers (TooLargeAsData.before r1 r2 r3 d ids listener)
       [ (rpEventEmitter, "callback",
          listener (TooLargeAsData.rp_callback r1));
         (idp1EventEmitter, "callback",
          listener (TooLargeAsData.idp1_callback r2));
         (as1EventEmitter, "callback",
          listener (TooLargeAsData.as1_callback r3 d)) ])
  ∧ (∀ r1 r2 f (listener : _ → L),
     truthy f = true →
     registers (TwoIdpAcceptRejectMode1.before r1 r2 f listener)
       [ (rpEventEmitter, "callback",
          listener (TwoIdpAcceptRejectMode1.rp_callback r1 r2));
         (idp1EventEmitter, "callback",
          listener TwoIdpAcceptRejectMode1.idp1_callback);
         (idp2EventEmitter, "callback",
          listener TwoIdpAcceptRejectMode1.idp2_callback) ])
  ∧ (∀ r1 r2 f ids (listener : _ → L),
     truthy f = true →
     loose_eq_null (default VUndefined (head ids)) = false →
     registers (SecondIdp.before r1 r2 f ids listener)
       [ (idp1EventEmitter, "callback",
          listener (SecondIdp.idp1_callback r2));
         (idp2EventEmitter, "callback",
          listener (SecondIdp.idp2_callback r1));
         (idp2EventEmitter, "accessor_sign_callback",
          listener (SecondIdp.idp2_accessor_sign_callback r1)) ])
  ∧ (∀ r (listener : _ → L),
     registers (EnableNamespace.before r listener)
       [ (idp1EventEmitter, "callback",
          listener (EnableNamespace.idp1_callback r));
         (idp1EventEmitter, "accessor_sign_callback",
          listener (EnableNamespace.idp1_accessor_sign_callback r)) ]).
Proof.
  split_and!.
  - intros r1 r2 r3 f1 f2 f3 listener H1 H2 H3.
    hook_registers EnableServiceDestination.before by (rewrite H1, H2, H3).
  - intros r1 r2 r3 d ids listener H.
    hook_registers TooLargeAsData.before by (rewrite H).
  - intros r1 r2 f listener H.
    hook_registers TwoIdpAcceptRejectMode1.before by (rewrite H).
  - intros r1 r2 f ids listener H1 H2.
    hook_registers SecondIdp.before by (rewrite H1, H2).
  - intros r listener.
    hook_registers EnableNamespace.before by idtac.
Qed.

Ltac settle_keys_exact :=
  repeat case_decide; destruct_and?; simplify_eq; try done;
  exfalso; set_solver.

Tactic Notation "hook_removes" reference(after) :=
  intros sv; split; [reflexivity|];
  intros e name; unfold after; run_hook; settle_keys_exact.

(** X7. The [after] hook of each of the five test files returns, and its
    whole effect on the listeners is this: the list of every event it
    names becomes empty, whoever registered the listeners in it, and the
    list of every other event of every emitter is left as it is. *)
Theorem after_removes_exactly {L : Type} :
  removes (@EnableServiceDestination.after L)
    [ (rpEventEmitter, "callback"); (idp1EventEmitter, "callback");
      (as1EventEmitter, "callback") ]
  ∧ removes (@TooLargeAsData.after L)
      [ (rpEventEmitter, "callback"); (idp1EventEmitter, "callback");
        (as1EventEmitter, "callback") ]
  ∧ removes (@TwoIdpAcceptRejectMode1.after L)
      [ (rpEventEmitter, "callback"); (idp1EventEmitter, "callback");
        (idp2EventEmitter, "callback") ]
  ∧ removes (@SecondIdp.after L)
      [ (idp1EventEmitter, "callback"); (idp2EventEmitter, "callback");
        (idp2EventEmitter, "accessor_sign_callback") ]
  ∧ removes (@EnableNamespace.after L)
      [ (idp1EventEmitter, "callback");
        (idp1EventEmitter, "accessor_sign_callback") ].
Proof.
  split_and!.
  - hook_removes EnableServiceDestination.after.
  - hook_removes TooLargeAsData.after.
  - hook_removes TwoIdpAcceptRejectMode1.after.
  - hook_removes SecondIdp.after.
  - hook_removes EnableNamespace.after.
Qed.

(** X8. A [before] hook whose guard fails registers nothing: it throws
    with the callback server untouched.  The enable-service-destination
    and 2-IdP hooks skip ([Pending]) when a node they need is unavailable;
    the too-large-AS-data hook throws [Error('No created identity to use')]
    before it switches [setAsSendDataThroughCallback]; the 2nd-IdP hook
    checks the availability of idp2 first, so it skips rather than fails
    when both idp2 and the identity are missing. *)
Theorem before_guard_fails {L : Type} (sv : server L) :
  (∀ r1 r2 r3 f1 f2 f3 (listener : _ → L),
     truthy f1 = false ∨ truthy f2 = false ∨ truthy f3 = false →
     EnableServiceDestination.before r1 r2 r3 f1 f2 f3 listener sv
     = (Throw (Pending "sync skip"), sv))
  ∧ (∀ r1 r2 r3 d ids (listener : _ → L),
     loose_eq_null (default VUndefined (head ids)) = true →
     TooLargeAsData.before r1 r2 r3 d ids listener sv
     = (Throw (Error "No created identity to use"), sv))
  ∧ (∀ r1 r2 f (listener : _ → L),
     truthy f = false →
     TwoIdpAcceptRejectMode1.before r1 r2 f listener sv
     = (Throw (Pending "sync skip"), sv))
  ∧ (∀ r1 r2 f ids (listener : _ → L),
     truthy f = false →
     SecondIdp.before r1 r2 f ids listener sv
     = (Throw (Pending "sync skip"), sv))
  ∧ (∀ r1 r2 f ids (listener : _ → L),
     truthy f = true →
     loose_eq_null (default VUndefined (head ids)) = true →
     SecondIdp.before r1 r2 f ids listener sv
     = (Throw (Error "No created identity to use"), sv)).
Proof.
  split_and!.
  - intros r1 r2 r3 f1 f2 f3 listener H.
    unfold EnableServiceDestination.before.
    assert (negb (truthy f1) || negb (truthy f2) || negb (truthy f3) = true)
      as ->; [|reflexivity].
    destruct H as [->|[->| ->]]; simpl;
      rewrite ?orb_true_r; reflexivity.
  - intros r1 r2 r3 d ids listener H.
    unfold TooLargeAsData.before. by rewrite H.
  - intros r1 r2 f listener H.
    unfold TwoIdpAcceptRejectMode1.before. by rewrite H.
  - intros r1 r2 f ids listener H.
    unfold SecondIdp.before. by rewrite H.
  - intros r1 r2 f ids listener H1 H2.
    unfold SecondIdp.before. by rewrite H1, H2.
Qed.

Section Tables.

Context {L : Type}.
Implicit Types (sv : server L) (e : emitter) (name : string) (l : L).

Lemma tables_on sv e name l e' name' :
  tables (exec (on e name l) sv) e' !! name' =
  if decide (e = e' ∧ name = name') then Some (listeners sv e name ++ [l])
  else tables sv e' !! name'.
Proof.
  unfold exec, on, modify. simpl.
  case_decide as H.
  - destruct H as [<- <-]. by rewrite fn_lookup_insert, lookup_insert_eq.
  - destruct (decide (e = e')) as [<-|Hne].
    + rewrite fn_lookup_insert, lookup_insert_ne; [done|]. naive_solver.
    + by rewrite fn_lookup_insert_ne.
Qed.

Lemma tables_removeAllListeners sv e name e' name' :
  tables (exec (removeAllListeners e name) sv) e' !! name' =
  if decide (e = e' ∧ name = name') then None else tables sv e' !! name'.
Proof.
  unfold exec, removeAllListeners, modify. simpl.
  case_decide as H.
  - destruct H as [<- <-]. by rewrite fn_lookup_insert, lookup_delete_eq.
  - destruct (decide (e = e')) as [<-|Hne].
    + rewrite fn_lookup_insert, lookup_delete_ne; [done|]. naive_solver.
    + by rewrite fn_lookup_insert_ne.
Qed.

Lemma tables_setAsSendDataThroughCallback sv v e :
  tables (exec (setAsSendDataThroughCallback v) sv) e = tables sv e.
Proof. reflexivity. Qed.

End Tables.

Tactic Notation "hooks_restore" reference(before) reference(after) :=
  intros sv Hfree e; apply map_eq; intros name;
  unfold after, before; run_hook;
  repeat match goal with
  | |- context [if ?b then sv else _] => destruct b
  end;
  repeat first
    [ rewrite tables_removeAllListeners
    | rewrite tables_on
    | rewrite tables_setAsSendDataThroughCallback ];
  repeat case_decide; destruct_and?; simplify_eq; try done;
  symmetry; apply Hfree; set_solver.

(** X9. For each of the five test files, [before] followed by [after]
    gives back the listener tables exactly as they were, whenever no
    listener list was kept for the file's events beforehand; this holds
    whether the guards of [before] pass or not. *)
Theorem before_after_restores {L : Type} :
  (∀ r1 r2 r3 f1 f2 f3 (listener : _ → L),
     restores (EnableServiceDestination.before r1 r2 r3 f1 f2 f3 listener)
       EnableServiceDestination.after
       [ (rpEventEmitter, "callback"); (idp1EventEmitter, "callback");
         (as1EventEmitter, "callback") ])
  ∧ (∀ r1 r2 r3 d ids (listener : _ → L),
     restores (TooLargeAsData.before r1 r2 r3 d ids listener)
       TooLargeAsData.after
       [ (rpEventEmitter, "callback"); (idp1EventEmitter, "callback");
         (as1EventEmitter, "callback") ])
  ∧ (∀ r1 r2 f (listener : _ → L),
     restores (TwoIdpAcceptRejectMode1.before r1 r2 f listener)
       TwoIdpAcceptRejectMode1.after
       [ (rpEventEmitter, "callback"); (idp1EventEmitter, "callback");
         (idp2EventEmitter, "callback") ])
  ∧ (∀ r1 r2 f ids (listener : _ → L),
     restores (SecondIdp.before r1 r2 f ids listener) SecondIdp.after
       [ (idp1EventEmitter, "callback"); (idp2EventEmitter, "callback");
         (idp2EventEmitter, "accessor_sign_callback") ])
  ∧ (∀ r (listener : _ → L),
     restores (EnableNamespace.before r listener) EnableNamespace.after
       [ (idp1EventEmitter, "callback");
         (idp1EventEmitter, "accessor_sign_callback") ]).
Proof.
  split_and!; intros.
  - hooks_restore EnableServiceDestination.before
      EnableServiceDestination.after.
  - hooks_restore TooLargeAsData.before TooLargeAsData.after.
  - hooks_restore TwoIdpAcceptRejectMode1.before
      TwoIdpAcceptRejectMode1.after.
  - hooks_restore SecondIdp.before SecondIdp.after.
  - hooks_restore EnableNamespace.before EnableNamespace.after.
Qed.

End HooksMore.

(** ** The listeners of the other test files *)

Module ListenersMore.

(** Decides every test a listener makes on the callback, then reads off
    the [resolve] calls it added. *)
Ltac listener_cases :=
  repeat match goal with
  | |- context [strict_eq ?a ?b] => destruct (strict_eq a b) eqn:?; simpl
  end;
  rewrite ?drop_app_length, ?drop_all.

(** X10. In the 2-IdP mode-1 test the IdP listeners do not look at
    reference ids: a 'response_result' callback resolves the response
    promise of its emitter whatever [reference_id] and [request_id] it
    carries, while an 'incoming_request' callback resolves the incoming
    promise only for the current [requestId]; nothing else resolves
    anything. *)
Theorem two_idp_listeners_resolve
    (s : TwoIdpAcceptRejectMode1.state) (cb : obj) :
  let new l := drop (length (TwoIdpAcceptRejectMode1.resolved s))
                 (TwoIdpAcceptRejectMode1.resolved (exec (l cb) s)) in
  (∀ p d, (p, d) ∈ new TwoIdpAcceptRejectMode1.idp1_callback ↔
     d = cb
     ∧ (p = TwoIdpAcceptRejectMode1.idp1IncomingRequestPromise
        ∧ field cb "type" = VStr "incoming_request"
        ∧ strict_eq (field cb "request_id")
            (TwoIdpAcceptRejectMode1.requestId s) = true
        ∨ p = TwoIdpAcceptRejectMode1.idp1ResponseResultPromise
          ∧ field cb "type" = VStr "response_result"))
  ∧ (∀ p d, (p, d) ∈ new TwoIdpAcceptRejectMode1.idp2_callback ↔
       d = cb
       ∧ (p = TwoIdpAcceptRejectMode1.idp2IncomingRequestPromise
          ∧ field cb "type" = VStr "incoming_request"
          ∧ strict_eq (field cb "request_id")
              (TwoIdpAcceptRejectMode1.requestId s) = true
          ∨ p = TwoIdpAcceptRejectMode1.idp2ResponseResultPromise
            ∧ field cb "type" = VStr "response_result")).
Proof.
  destruct s as [rid ups res]. cbv zeta.
  split; intros p d;
    unfold TwoIdpAcceptRejectMode1.idp1_callback,
      TwoIdpAcceptRejectMode1.idp2_callback, exec, mbind, M_bind, gets;
    simpl; listener_cases; decide_resolved.
Qed.

(** X11. The listeners of the 2nd-IdP create-identity test: the IdP-1
    listener resolves [incomingRequestPromise] exactly on
    'incoming_request' for the current [requestId] and
    [responseResultPromise] exactly on 'response_result' with
    [reference_id === idp1ReferenceId]; the IdP-2 listener resolves
    [createIdentityRequestResultPromise] and [createIdentityResultPromise]
    exactly on their types with [reference_id === referenceId]; the
    accessor-sign listener resolves [accessorSignPromise] exactly when
    [reference_id === referenceId], without looking at the type. *)
Theorem second_idp_listeners_resolve (referenceId idp1ReferenceId : value)
    (s : SecondIdp.state) (cb : obj) :
  let new l := drop (length (SecondIdp.resolved s))
                 (SecondIdp.resolved (exec (l cb) s)) in
  (∀ p d, (p, d) ∈ new (SecondIdp.idp1_callback idp1ReferenceId) ↔
     d = cb
     ∧ (p = SecondIdp.incomingRequestPromise
        ∧ field cb "type" = VStr "incoming_request"
        ∧ strict_eq (field cb "request_id") (SecondIdp.requestId s) = true
        ∨ p = SecondIdp.responseResultPromise
          ∧ field cb "type" = VStr "response_result"
          ∧ strict_eq (field cb "reference_id") idp1ReferenceId = true))
  ∧ (∀ p d, (p, d) ∈ new (SecondIdp.idp2_callback referenceId) ↔
       d = cb
       ∧ strict_eq (field cb "reference_id") referenceId = true
       ∧ (p = SecondIdp.createIdentityRequestResultPromise
          ∧ field cb "type" = VStr "create_identity_request_result"
          ∨ p = SecondIdp.createIdentityResultPromise
            ∧ field cb "type" = VStr "create_identity_result"))
  ∧ (∀ p d,
       (p, d) ∈ new (SecondIdp.idp2_accessor_sign_callback referenceId) ↔
       d = cb ∧ p = SecondIdp.accessorSignPromise
       ∧ strict_eq (field cb "reference_id") referenceId = true).
Proof.
  destruct s as [rid res]. cbv zeta.
  split_and!; intros p d;
    unfold SecondIdp.idp1_callback, SecondIdp.idp2_callback,
      SecondIdp.idp2_accessor_sign_callback, exec, mbind, M_bind, gets;
    simpl; listener_cases; decide_resolved.
Qed.

(** X12. The listeners of the enable-namespace test: the IdP-1 listener
    resolves [createIdentityRequestResultPromise] and
    [createIdentityResultPromise] exactly on their types with
    [reference_id === referenceId]; the accessor-sign listener resolves
    [accessorSignPromise] exactly when [reference_id === referenceId]. *)
Theorem enable_namespace_listeners_resolve (referenceId : value)
    (s : EnableNamespace.state) (cb : obj) :
  let new l := drop (length (EnableNamespace.resolved s))
                 (EnableNamespace.resolved (exec (l cb) s)) in
  (∀ p d, (p, d) ∈ new (EnableNamespace.idp1_callback referenceId) ↔
     d = cb
     ∧ strict_eq (field cb "reference_id") referenceId = true
     ∧ (p = EnableNamespace.createIdentityRequestResultPromise
        ∧ field cb "type" = VStr "create_identity_request_result"
        ∨ p = EnableNamespace.createIdentityResultPromise
          ∧ field cb "type" = VStr "create_identity_result"))
  ∧ (∀ p d,
       (p, d) ∈ new (EnableNamespace.idp1_accessor_sign_callback referenceId)
       ↔ d = cb ∧ p = EnableNamespace.accessorSignPromise
         ∧ strict_eq (field cb "reference_id") referenceId = true).
Proof.
  destruct s as [res]. cbv zeta.
  split_and!; intros p d;
    unfold EnableNamespace.idp1_callback,
      EnableNamespace.idp1_accessor_sign_callback, exec;
    simpl; listener_cases; decide_resolved.
Qed.

(** X13. The AS listener of the too-large-AS-data test,
    [function(callbackData, sendData)].  On a 'data_request' for the
    current [requestId] it first resolves [dataRequestReceivedPromise] and
    then calls its second argument once, with the payload [{ data }]: the
    listener ends as that call ends, so it throws a [TypeError] when no
    function was passed and throws whatever [sendData] throws.  On every
    other callback it never calls [sendData] and never throws, leaves
    [requestId], [requestStatusUpdates] and the record of [sendData] calls
    alone, and resolves [sendDataResultPromise] exactly on
    'send_data_result' with [reference_id === asReferenceId] and
    [errorCallbackPromise] on every 'error' callback, whatever ids it
    carries. *)
Theorem too_large_as_listener (asReferenceId data : value)
    (sendData : option (obj → M TooLargeAsData.state unit))
    (s : TooLargeAsData.state) (cb : obj) :
  let run := TooLargeAsData.as1_listener asReferenceId data cb sendData in
  let s1 :=
    TooLargeAsData.State (TooLargeAsData.requestId s)
      (TooLargeAsData.requestStatusUpdates s)
      (TooLargeAsData.resolved s
         ++ [(TooLargeAsData.dataRequestReceivedPromise, cb)])
      (TooLargeAsData.sent s) in
  if strict_eq (field cb "type") (VStr "data_request")
     && strict_eq (field cb "request_id") (TooLargeAsData.requestId s)
  then
    match sendData with
    | Some f => run s = f {[ "data" := data ]} s1
    | None => run s = (Throw (TypeError "sendData is not a function"), s1)
    end
  else
    outcome run s = Return tt
    ∧ TooLargeAsData.requestId (exec run s) = TooLargeAsData.requestId s
    ∧ TooLargeAsData.requestStatusUpdates (exec run s)
      = TooLargeAsData.requestStatusUpdates s
    ∧ TooLargeAsData.sent (exec run s) = TooLargeAsData.sent s
    ∧ (∀ p d,
         (p, d) ∈ drop (length (TooLargeAsData.resolved s))
                    (TooLargeAsData.resolved (exec run s)) ↔
         d = cb
         ∧ (p = TooLargeAsData.sendDataResultPromise
            ∧ field cb "type" = VStr "send_data_result"
            ∧ strict_eq (field cb "reference_id") asReferenceId = true
            ∨ p = TooLargeAsData.errorCallbackPromise
              ∧ field cb "type" = VStr "error")).
Proof.
  destruct s as [rid ups res snt]. cbv zeta.
  unfold TooLargeAsData.as1_listener, outcome, exec, mbind, M_bind, gets.
  simpl.
  destruct (strict_eq (field cb "type") (VStr "data_request")) eqn:Et;
    simpl.
  - destruct (strict_eq (field cb "request_id") rid) eqn:Er; simpl.
    + by destruct sendData.
    + apply strict_eq_VStr in Et. rewrite Et. simpl.
      rewrite drop_all. split_and!; try done. intros p d.
      split; [by intros ?%elem_of_nil|].
      intros (_ & [(_ & ? & _) | (_ & ?)]); discriminate.
  - listener_cases; (split_and!; try done); intros p d; decide_resolved.
Qed.

(** With the recording [sendData], a 'data_request' for the current
    [requestId] adds the payload to the record and returns. *)
Example too_large_as_listener_sends :
  TooLargeAsData.as1_callback (VStr "ref-as") (VStr "0a1b")
    (<[ "type" := VStr "data_request" ]> {[ "request_id" := VStr "req-1" ]})
    (TooLargeAsData.State (VStr "req-1") [] [] [])
  = (Return tt,
     TooLargeAsData.State (VStr "req-1") []
       [ (TooLargeAsData.dataRequestReceivedPromise,
          <[ "type" := VStr "data_request" ]>
            {[ "request_id" := VStr "req-1" ]}) ]
       [ {[ "data" := VStr "0a1b" ]} ]).
Proof. vm_compute. reflexivity. Qed.

(** Called without a second argument, the listener throws after it has
    resolved the promise. *)
Example too_large_as_listener_no_sendData :
  TooLargeAsData.as1_listener (VStr "ref-as") (VStr "0a1b")
    (<[ "type" := VStr "data_request" ]> {[ "request_id" := VStr "req-1" ]})
    None
    (TooLargeAsData.State (VStr "req-1") [] [] [])
  = (Throw (TypeError "sendData is not a function"),
     TooLargeAsData.State (VStr "req-1") []
       [ (TooLargeAsData.dataRequestReceivedPromise,
          <[ "type" := VStr "data_request" ]>
            {[ "request_id" := VStr "req-1" ]}) ]
       []).
Proof. vm_compute. reflexivity. Qed.

End ListenersMore.

(** ** Callbacks delivered one after the other *)

Module DeliveryMore.

Lemma deliver_cons {S} (l : obj → M S unit) cb cbs (s : S) :
  deliver l (cb :: cbs) s = deliver l cbs (exec (l cb) s).
Proof. reflexivity. Qed.

(** A listener that records exactly the status updates of the current
    request, and never writes [requestId], has recorded after any run of
    callbacks the status updates among them, in order of arrival. *)
Lemma deliver_updates {S} (l : obj → M S unit) (rid : S → value)
    (ups : S → list obj) :
  (∀ cb s, rid (exec (l cb) s) = rid s
           ∧ ups (exec (l cb) s)
             = ups s ++ if is_status_update (rid s) cb then [cb] else []) →
  ∀ cbs s, ups (deliver l cbs s)
           = ups s ++ List.filter (is_status_update (rid s)) cbs
           ∧ rid (deliver l cbs s) = rid s.
Proof.
  intros Hstep cbs. induction cbs as [|cb cbs IH]; intros s.
  - simpl. by rewrite app_nil_r.
  - rewrite deliver_cons. destruct (Hstep cb s) as [Hrid Hups].
    destruct (IH (exec (l cb) s)) as [IHups IHrid].
    rewrite IHups, IHrid, Hups, Hrid. split; [|done].
    simpl. destruct (is_status_update (rid s) cb); simpl.
    + by rewrite <- app_assoc.
    + by rewrite app_nil_r.
Qed.

Ltac clash_types :=
  repeat match goal with
  | H : strict_eq _ (VStr _) = true |- _ => apply strict_eq_VStr in H
  end;
  try congruence.

Lemma two_idp_rp_step (r1 r2 : value) (cb : obj)
    (s : TwoIdpAcceptRejectMode1.state) :
  let s' := exec (TwoIdpAcceptRejectMode1.rp_callback r1 r2 cb) s in
  TwoIdpAcceptRejectMode1.requestId s' = TwoIdpAcceptRejectMode1.requestId s
  ∧ TwoIdpAcceptRejectMode1.requestStatusUpdates s'
    = TwoIdpAcceptRejectMode1.requestStatusUpdates s
      ++ if is_status_update (TwoIdpAcceptRejectMode1.requestId s) cb
         then [cb] else [].
Proof.
  destruct s as [rid ups res]. cbv zeta.
  unfold TwoIdpAcceptRejectMode1.rp_callback, is_status_update, exec, mbind,
    M_bind, gets, when_. simpl.
  repeat match goal with
  | |- context [strict_eq ?a ?b] => destruct (strict_eq a b) eqn:?; simpl
  | |- context [truthy ?a] => destruct (truthy a); simpl
  end;
  rewrite ?app_nil_r; try done; exfalso; clash_types.
Qed.

Lemma too_large_rp_step (r1 : value) (cb : obj) (s : TooLargeAsData.state) :
  let s' := exec (TooLargeAsData.rp_callback r1 cb) s in
  TooLargeAsData.requestId s' = TooLargeAsData.requestId s
  ∧ TooLargeAsData.requestStatusUpdates s'
    = TooLargeAsData.requestStatusUpdates s
      ++ if is_status_update (TooLargeAsData.requestId s) cb
         then [cb] else [].
Proof.
  destruct s as [rid ups res snt]. cbv zeta.
  unfold TooLargeAsData.rp_callback, is_status_update, exec, mbind,
    M_bind, gets, lift. simpl.
  repeat match goal with
  | |- context [strict_eq (field ?a ?k) ?b] =>
      destruct (strict_eq (field a k) b) eqn:?; simpl
  | |- context [truthy ?a] => destruct (truthy a); simpl
  | |- context [TooLargeAsData.signed_data_count_0 ?a] =>
      destruct (TooLargeAsData.signed_data_count_0 a) as [count|e]; simpl;
      [destruct (strict_eq count (VNum 1)); simpl|]
  end;
  rewrite ?app_nil_r; try done; exfalso; clash_types.
Qed.

(** X14. After any run of callbacks delivered to the RP listener of the
    2-IdP mode-1 test, [requestStatusUpdates] holds, behind what it held
    before and in order of arrival, exactly the delivered callbacks of type
    'request_status' whose [request_id] is the current [requestId]: none is
    dropped, repeated or reordered, whatever their status, and [requestId]
    is not changed by the listener.  (So the final check that four updates
    were received counts exactly these callbacks.) *)
Theorem two_idp_updates_delivered (r1 r2 : value) (cbs : list obj)
    (s : TwoIdpAcceptRejectMode1.state) :
  let s' := deliver (TwoIdpAcceptRejectMode1.rp_callback r1 r2) cbs s in
  TwoIdpAcceptRejectMode1.requestStatusUpdates s'
  = TwoIdpAcceptRejectMode1.requestStatusUpdates s
    ++ List.filter (is_status_update (TwoIdpAcceptRejectMode1.requestId s)) cbs
  ∧ TwoIdpAcceptRejectMode1.requestId s' = TwoIdpAcceptRejectMode1.requestId s.
Proof.
  apply (deliver_updates _ TwoIdpAcceptRejectMode1.requestId
           TwoIdpAcceptRejectMode1.requestStatusUpdates).
  intros cb s0. apply two_idp_rp_step.
Qed.

(** X15. The same holds for the RP listener of the too-large-AS-data
    test, also across callbacks on which it throws: a 'confirmed' update
    whose [service_list[0]] cannot be read is recorded in
    [requestStatusUpdates] before the [TypeError] is raised. *)
Theorem too_large_updates_delivered (r1 : value) (cbs : list obj)
    (s : TooLargeAsData.state) :
  let s' := deliver (TooLargeAsData.rp_callback r1) cbs s in
  TooLargeAsData.requestStatusUpdates s'
  = TooLargeAsData.requestStatusUpdates s
    ++ List.filter (is_status_update (TooLargeAsData.requestId s)) cbs
  ∧ TooLargeAsData.requestId s' = TooLargeAsData.requestId s.
Proof.
  apply (deliver_updates _ TooLargeAsData.requestId
           TooLargeAsData.requestStatusUpdates).
  intros cb s0. apply too_large_rp_step.
Qed.

End DeliveryMore.

(** ** Callbacks meant for another test *)

Module IsolationMore.

Ltac ignore_callback :=
  simpl in *;
  repeat match goal with
  | H : strict_eq _ _ = false |- _ => rewrite H; clear H
  end;
  rewrite ?andb_false_r; simpl;
  repeat match goal with
  | |- context [strict_eq ?a ?b] => destruct (strict_eq a b); simpl
  end;
  reflexivity.

(** X16. The emitters are shared by all test files, and the listeners
    keep the files apart by ids: a callback whose [reference_id] is none of
    the file's reference ids and whose [request_id] is not the file's
    current [requestId] changes nothing and throws nothing, whatever its
    type and other fields.  This holds for all listeners of the
    enable-service-destination, 2nd-IdP and enable-namespace tests, for
    the RP and IdP listeners of the too-large-AS-data test and for the RP
    listener of the 2-IdP test. *)
Theorem unrelated_callbacks_ignored (cb : obj) :
  (∀ r1 r2 r3 (s : EnableServiceDestination.state) l,
     strict_eq (field cb "reference_id") r1 = false →
     strict_eq (field cb "reference_id") r2 = false →
     strict_eq (field cb "reference_id") r3 = false →
     strict_eq (field cb "request_id") (EnableServiceDestination.requestId s)
       = false →
     l ∈ [ EnableServiceDestination.rp_callback r1;
           EnableServiceDestination.idp1_callback r2;
           EnableServiceDestination.as1_callback r3 ] →
     l cb s = (Return tt, s))
  ∧ (∀ r1 r2 (s : TooLargeAsData.state) l,
     strict_eq (field cb "reference_id") r1 = false →
     strict_eq (field cb "reference_id") r2 = false →
     strict_eq (field cb "request_id") (TooLargeAsData.requestId s) = false →
     l ∈ [ TooLargeAsData.rp_callback r1; TooLargeAsData.idp1_callback r2 ] →
     l cb s = (Return tt, s))
  ∧ (∀ r1 r2 (s : TwoIdpAcceptRejectMode1.state),
     strict_eq (field cb "reference_id") r1 = false →
     strict_eq (field cb "reference_id") r2 = false →
     strict_eq (field cb "request_id") (TwoIdpAcceptRejectMode1.requestId s)
       = false →
     TwoIdpAcceptRejectMode1.rp_callback r1 r2 cb s = (Return tt, s))
  ∧ (∀ r1 r2 (s : SecondIdp.state) l,
     strict_eq (field cb "reference_id") r1 = false →
     strict_eq (field cb "reference_id") r2 = false →
     strict_eq (field cb "request_id") (SecondIdp.requestId s) = false →
     l ∈ [ SecondIdp.idp1_callback r2; SecondIdp.idp2_callback r1;
           SecondIdp.idp2_accessor_sign_callback r1 ] →
     l cb s = (Return tt, s))
  ∧ (∀ r (s : EnableNamespace.state) l,
     strict_eq (field cb "reference_id") r = false →
     l ∈ [ EnableNamespace.idp1_callback r;
           EnableNamespace.idp1_accessor_sign_callback r ] →
     l cb s = (Return tt, s)).
Proof.
  split_and!.
  - intros r1 r2 r3 [rid res] l H1 H2 H3 H4 Hl.
    repeat (apply elem_of_cons in Hl as [->|Hl]);
      try (by apply elem_of_nil in Hl);
      unfold EnableServiceDestination.rp_callback,
        EnableServiceDestination.idp1_callback,
        EnableServiceDestination.as1_callback, mbind, M_bind, gets;
      ignore_callback.
  - intros r1 r2 [rid ups res snt] l H1 H2 H3 Hl.
    repeat (apply elem_of_cons in Hl as [->|Hl]);
      try (by apply elem_of_nil in Hl);
      unfold TooLargeAsData.rp_callback, TooLargeAsData.idp1_callback,
        mbind, M_bind, gets;
      ignore_callback.
  - intros r1 r2 [rid ups res] H1 H2 H3.
    unfold TwoIdpAcceptRejectMode1.rp_callback, mbind, M_bind, gets.
    ignore_callback.
  - intros r1 r2 [rid res] l H1 H2 H3 Hl.
    repeat (apply elem_of_cons in Hl as [->|Hl]);
      try (by apply elem_of_nil in Hl);
      unfold SecondIdp.idp1_callback, SecondIdp.idp2_callback,
        SecondIdp.idp2_accessor_sign_callback, mbind, M_bind, gets;
      ignore_callback.
  - intros r [res] l H1 Hl.
    repeat (apply elem_of_cons in Hl as [->|Hl]);
      try (by apply elem_of_nil in Hl);
      unfold EnableNamespace.idp1_callback,
        EnableNamespace.idp1_accessor_sign_callback;
      ignore_callback.
Qed.

End IsolationMore.

(** ** The shape of [creation_block_height] *)

Module BlockHeightMore.
Import Completion BlockHeight.
Import Stdlib.Strings.Ascii.

(** The character [c] occurs in [s]. *)
Abbreviation occurs c s := (In c (String.list_ascii_of_string s)).

Lemma split_nonempty (c : ascii) (s : string) : split c s ≠ [].
Proof.
  destruct s as [|x s]; simpl; [done|].
  destruct (Ascii.eqb x c); [done|]. by destruct (split c s).
Qed.

Lemma split_one (c : ascii) (s a : string) :
  split c s = [a] ↔ s = a ∧ ¬ occurs c s.
Proof.
  revert a. induction s as [|x s IH]; intros a; simpl.
  - split; [intros [= <-]; tauto | intros [<- _]; done].
  - destruct (Ascii.eqb_spec x c) as [->|Hne].
    + split.
      * intros [= <- Hs]. by destruct (split_nonempty c s).
      * intros [_ Hno]. exfalso. apply Hno. by left.
    + destruct (split c s) as [|p ps] eqn:Es;
        [by destruct (split_nonempty c s)|].
      split.
      * intros [= <- ->]. destruct (proj1 (IH _) eq_refl) as [-> Hno].
        split; [done|]. intros [?|?]; [done|]. by apply Hno.
      * intros [<- Hno].
        assert (Hs : p :: ps = [s]) by (apply IH; tauto).
        by injection Hs as -> ->.
Qed.

Lemma split_two (c : ascii) (s a b : string) :
  split c s = [a; b]
  ↔ s = String.append a (String c b) ∧ ¬ occurs c a ∧ ¬ occurs c b.
Proof.
  revert a. induction s as [|x s IH]; intros a; simpl.
  - split; [discriminate|]. intros [H _]. by destruct a.
  - destruct (Ascii.eqb_spec x c) as [->|Hne].
    + split.
      * intros [= <- Hs]. apply split_one in Hs as [-> Hno].
        split_and!; [done | by intros [] | done].
      * intros (Hs & Ha & Hb). destruct a as [|y a]; simpl in *.
        -- injection Hs as ->. f_equal. apply split_one. tauto.
        -- injection Hs as <- _. exfalso. apply Ha. by left.
    + destruct (split c s) as [|p ps] eqn:Es;
        [by destruct (split_nonempty c s)|].
      split.
      * intros [= <- ->]. destruct (proj1 (IH _) eq_refl) as (-> & Hp & Hb).
        split_and!; [done | | done].
        intros [?|?]; [done|]. by apply Hp.
      * intros (Hs & Ha & Hb). destruct a as [|y a]; simpl in *.
        -- by injection Hs as ->.
        -- injection Hs as <- ->.
           assert (Hs : p :: ps = [a; b]) by (apply IH; tauto).
           by injection Hs as -> ->.
Qed.

Lemma checks_pass_iff_split (s : string) :
  expect_creation_block_height (VStr s) = Return tt
  ↔ ∃ a b, split ":" s = [a; b] ∧ a ≠ EmptyString ∧ b ≠ EmptyString.
Proof.
  unfold expect_creation_block_height, expect_a_string, expect_lengthOf,
    expect_lengthOf_at_least, mbind, completion_bind.
  destruct (split ":" s) as [|a [|b [|? ?]]]; simpl;
    try (split; [discriminate | by intros (?&?&?&?)]).
  destruct a as [|x a], b as [|y b]; simpl;
    (split; [try discriminate | intros (?&?&[= <- <-]&?&?); try done]).
  intros _. eexists _, _. split_and!; [reflexivity|done|done].
Qed.

Lemma checks_throw_assertion (v : value) (e : exn) :
  expect_creation_block_height v = Throw e →
  ∃ message, e = AssertionError message.
Proof.
  unfold expect_creation_block_height, expect_a_string, expect_lengthOf,
    expect_lengthOf_at_least, mbind, completion_bind.
  destruct v as [| |?|?|s|?|?|?]; try (intros [= <-]; eauto).
  destruct (split ":" s) as [|a [|b [|? ?]]]; simpl;
    try (intros [= <-]; eauto).
  destruct a as [|x a], b as [|y b]; simpl;
    try discriminate; intros [= <-]; eauto.
Qed.

(** X17. The checks made on a [creation_block_height] pass exactly for a
    string of the form [a:b] with [a] and [b] non-empty and free of ':'
    (one colon, something on both sides); on anything else (not a string,
    no colon, several colons, an empty side) they fail with an
    [AssertionError], never with another exception. *)
Theorem expect_creation_block_height_passes (v : value) :
  (expect_creation_block_height v = Return tt
   ↔ ∃ a b, v = VStr (String.append a (String ":" b))
            ∧ a ≠ EmptyString ∧ b ≠ EmptyString
            ∧ ¬ occurs ":"%char a ∧ ¬ occurs ":"%char b)
  ∧ (∀ e, expect_creation_block_height v = Throw e →
          ∃ message, e = AssertionError message).
Proof.
  split; [|apply checks_throw_assertion].
  destruct v as [| |?|?|s|?|?|?];
    try (split; [discriminate | by intros (?&?&?&?)]).
  rewrite checks_pass_iff_split. split.
  - intros (a & b & Hs & Ha & Hb).
    apply split_two in Hs as (-> & Hca & Hcb). by exists a, b.
  - intros (a & b & [= ->] & Ha & Hb & Hca & Hcb).
    exists a, b. split_and!; try done. apply split_two. tauto.
Qed.

End BlockHeightMore.

(** ** The identity look-ups *)

Module FlowParamsMore.
Import Completion FlowParams.

(** What [find] returns, for any test [p]. *)
Lemma find_spec (p : value → completion bool) (xs : list value) :
  match find p xs with
  | Return v =>
      (∃ pre post, xs = pre ++ v :: post ∧ p v = Return true
                   ∧ ∀ x, x ∈ pre → p x = Return false)
      ∨ (v = VUndefined ∧ ∀ x, x ∈ xs → p x = Return false)
  | Throw e =>
      ∃ pre x post, xs = pre ++ x :: post ∧ p x = Throw e
                    ∧ ∀ y, y ∈ pre → p y = Return false
  end.
Proof.
  induction xs as [|x xs IH]; simpl.
  - right. split; [done|]. intros x Hx. by apply elem_of_nil in Hx.
  - destruct (p x) as [[|]|e] eqn:Ex.
    + left. exists [], xs. split_and!; try done.
      intros y Hy. by apply elem_of_nil in Hy.
    + destruct (find p xs) as [v|e].
      * destruct IH as [(pre & post & -> & Hv & Hpre)|[-> Hall]].
        -- left. exists (x :: pre), post. split_and!; try done.
           intros y [->|Hy]%elem_of_cons; [done|by apply Hpre].
        -- right. split; [done|].
           intros y [->|Hy]%elem_of_cons; [done|by apply Hall].
      * destruct IH as (pre & y & post & -> & Hy & Hpre).
        exists (x :: pre), y, post. split_and!; try done.
        intros z [->|Hz]%elem_of_cons; [done|by apply Hpre].
    + exists [], x, xs. split_and!; try done.
      intros y Hy. by apply elem_of_nil in Hy.
Qed.

Lemma mode_test (identity : value) (b : bool) :
  (mode ← get_prop identity "mode"; mret (strict_eq mode (VNum 3)))
  = Return b ↔ mode_is_3 b identity.
Proof.
  unfold mode_is_3, mbind, completion_bind, mret, completion_ret.
  destruct (get_prop identity "mode") as [mode|e]; split.
  - intros [= <-]. by exists mode.
  - by intros (? & [= <-] & <-).
  - discriminate.
  - by intros (? & ? & _).
Qed.

(** X18. [getIdentityForRequest] returns the first identity of
    [db.idp1Identities] whose [mode] is 3, skipping those before it, and
    [undefined] when no identity has mode 3 (in particular when there is
    no identity at all); it throws only on an entry that is [undefined] or
    [null], met before any identity of mode 3, and then a [TypeError]. *)
Theorem getIdentityForRequest_first_mode_3 (idp1Identities : list value) :
  match getIdentityForRequest idp1Identities with
  | Return identity =>
      (∃ pre post, idp1Identities = pre ++ identity :: post
                   ∧ mode_is_3 true identity
                   ∧ ∀ x, x ∈ pre → mode_is_3 false x)
      ∨ (identity = VUndefined
         ∧ ∀ x, x ∈ idp1Identities → mode_is_3 false x)
  | Throw e =>
      ∃ pre x post, idp1Identities = pre ++ x :: post
                    ∧ loose_eq_null x = true
                    ∧ (∃ message, e = TypeError message)
                    ∧ ∀ y, y ∈ pre → mode_is_3 false y
  end.
Proof.
  unfold getIdentityForRequest.
  pose proof (find_spec
    (λ identity, mode ← get_prop identity "mode";
                 mret (strict_eq mode (VNum 3))) idp1Identities) as H.
  destruct (find _ idp1Identities) as [v|e].
  - destruct H as [(pre & post & -> & Hv & Hpre)|[-> Hall]].
    + left. exists pre, post. split_and!; [done|by apply mode_test|].
      intros x Hx. by apply mode_test, Hpre.
    + right. split; [done|]. intros x Hx. by apply mode_test, Hall.
  - destruct H as (pre & x & post & -> & Hx & Hpre).
    exists pre, x, post. split_and!; [done| | |].
    + by destruct x.
    + unfold mbind, completion_bind in Hx.
      destruct x; simpl in Hx; try discriminate; injection Hx as <-; eauto.
    + intros y Hy. by apply mode_test, Hpre.
Qed.

Lemma find_first (p : value → completion bool) (pre post : list value)
    (x : value) :
  p x = Return true → (∀ y, y ∈ pre → p y = Return false) →
  find p (pre ++ x :: post) = Return x.
Proof.
  intros Hx. induction pre as [|y pre IH]; intros Hpre; simpl.
  - by rewrite Hx.
  - rewrite (Hpre y) by set_solver. apply IH. intros z Hz. apply Hpre.
    set_solver.
Qed.

Lemma find_none (p : value → completion bool) (xs : list value) :
  (∀ y, y ∈ xs → p y = Return false) → find p xs = Return VUndefined.
Proof.
  induction xs as [|y xs IH]; intros Hall; simpl; [done|].
  rewrite (Hall y) by set_solver. apply IH. intros z Hz. apply Hall.
  set_solver.
Qed.

(** X19. [getAccessorForResponse] answers with the [accessorId] of the
    first accessor of the first identity that matches, where an identity
    matches by namespace and identifier or by [referenceGroupCode].  Two
    edges follow from the code: an identity without [referenceGroupCode]
    matches a call without [referenceGroupCode] whatever its namespace and
    identifier ([undefined === undefined]); and when no identity matches,
    or the matching identity has an empty [accessors] array, the function
    throws a [TypeError] instead of returning. *)
Theorem getAccessorForResponse_selects (idp1Identities : list value)
    (args : obj) :
  let matches :=
    identity_matches (field args "namespace") (field args "identifier")
      (field args "referenceGroupCode") in
  (∀ o : obj,
     matches (VObj o)
     = Return (strict_eq (field o "namespace") (field args "namespace")
               && strict_eq (field o "identifier") (field args "identifier")
               || strict_eq (field o "referenceGroupCode")
                    (field args "referenceGroupCode")))
  ∧ (∀ o : obj,
       o !! "referenceGroupCode" = None →
       args !! "referenceGroupCode" = None →
       matches (VObj o) = Return true)
  ∧ (∀ pre post (o a : obj) rest,
       idp1Identities = pre ++ VObj o :: post →
       matches (VObj o) = Return true →
       (∀ x, x ∈ pre → matches x = Return false) →
       o !! "accessors" = Some (VArr (VObj a :: rest)) →
       getAccessorForResponse idp1Identities args
       = Return (field a "accessorId"))
  ∧ (∀ pre post (o : obj),
       idp1Identities = pre ++ VObj o :: post →
       matches (VObj o) = Return true →
       (∀ x, x ∈ pre → matches x = Return false) →
       o !! "accessors" = Some (VArr []) →
       getAccessorForResponse idp1Identities args
       = Throw (TypeError (cannot_read "accessorId" "undefined")))
  ∧ ((∀ x, x ∈ idp1Identities → matches x = Return false) →
     getAccessorForResponse idp1Identities args
     = Throw (TypeError (cannot_read "accessors" "undefined"))).
Proof.
  cbv zeta. split_and!.
  - intros o. unfold identity_matches, mbind, completion_bind, mret,
      completion_ret. simpl.
    destruct (strict_eq (field o "namespace") _); simpl; [|done].
    by destruct (strict_eq (field o "identifier") _).
  - intros o Ho Hargs. unfold identity_matches, mbind, completion_bind, mret,
      completion_ret. simpl.
    assert (strict_eq (field o "referenceGroupCode")
              (field args "referenceGroupCode") = true) as ->.
    { unfold field. by rewrite Ho, Hargs. }
    destruct (strict_eq (field o "namespace") _); simpl; [|done].
    by destruct (strict_eq (field o "identifier") _).
  - intros pre post o a rest -> Hm Hpre Hacc.
    unfold getAccessorForResponse. rewrite (find_first _ _ _ _ Hm Hpre).
    unfold mbind, completion_bind. simpl. unfold field at 1. by rewrite Hacc.
  - intros pre post o -> Hm Hpre Hacc.
    unfold getAccessorForResponse. rewrite (find_first _ _ _ _ Hm Hpre).
    unfold mbind, completion_bind. simpl. unfold field at 1. by rewrite Hacc.
  - intros Hall. unfold getAccessorForResponse.
    by rewrite (find_none _ _ Hall).
Qed.

(** With no identity at all, the look-up for a response throws. *)
Example getAccessorForResponse_empty_db (args : obj) :
  getAccessorForResponse [] args
  = Throw (TypeError "Cannot read property 'accessors' of undefined").
Proof. reflexivity. Qed.

End FlowParamsMore.

(** ** The reduce-token test file, call by call *)

Module ReduceTokenMore.
Import ReduceTokenFailTx.

Section Suite.

Context {W : Type}.
Variable getToken : string → M W response.
Variable setNodeToken : string → obj → M W response.
Variable transact : string → obj → M W response.
Variables ndidAvailable idp1Available accessorPublicKey : value.

Abbreviation before := (before W getToken ndidAvailable idp1Available).
Abbreviation tests := (tests W getToken setNodeToken transact accessorPublicKey).
Abbreviation after := (after W setNodeToken).
Abbreviation flood := (flood W transact).
Abbreviation answered := (answered W transact).
Abbreviation it_token_after := (it_token_after W getToken).

(** X20. When the [before] hook of the reduce-token file does not
    complete, it has recorded nothing: if ndid1 or idp1 is unavailable it
    skips without any call, otherwise it makes the one call
    [getToken('idp1')]; and whenever it ends in an exception
    [nodeTokenBeforeTest] keeps the value it had.  Run from the initial
    state after such a [before], the [after] hook therefore sends
    [setNodeToken('ndid1', {node_id: 'idp1', amount: 0})]. *)
Theorem before_incomplete_records_nothing (s : state W) (w : W) :
  (truthy ndidAvailable = false ∨ truthy idp1Available = false →
   before s = (Throw (Pending "sync skip"), s))
  ∧ (truthy ndidAvailable = true → truthy idp1Available = true →
     log (exec before s) = log s ++ [GetToken "idp1"])
  ∧ (outcome before s ≠ Return tt →
     nodeTokenBeforeTest (exec before s) = nodeTokenBeforeTest s)
  ∧ (outcome before (initial W w) ≠ Return tt →
     ∃ calls, log (exec after (exec before (initial W w)))
              = calls ++
                [SetNodeToken "ndid1"
                   (<[ "node_id" := VStr "idp1" ]> {[ "amount" := VNum 0 ]})]).
Proof.
  assert (Hkeep : ∀ s0, outcome before s0 ≠ Return tt →
            nodeTokenBeforeTest (exec before s0) = nodeTokenBeforeTest s0).
  { intros s0. unfold outcome, exec, ReduceTokenFailTx.before, skip,
      commonApi_getToken, api, mbind, M_bind, lift, when_.
    destruct (negb (truthy ndidAvailable) || negb (truthy idp1Available));
      simpl; [done|].
    destruct (getToken "idp1" (platform s0)) as [[r|e] w0]; simpl; [|done].
    destruct (json r) as [responseBody|e]; simpl; [|done].
    by destruct (get_prop responseBody "amount") as [a|e]. }
  split_and!.
  - intros H. unfold ReduceTokenFailTx.before.
    assert (negb (truthy ndidAvailable) || negb (truthy idp1Available) = true)
      as ->; [|reflexivity].
    destruct H as [->| ->]; simpl; by rewrite ?orb_true_r.
  - intros H1 H2.
    unfold exec, ReduceTokenFailTx.before, commonApi_getToken, api, mbind,
      M_bind, lift, when_.
    rewrite H1, H2. simpl.
    destruct (getToken "idp1" (platform s)) as [[r|e] w0]; simpl; [|done].
    destruct (json r) as [responseBody|e]; simpl; [|done].
    by destruct (get_prop responseBody "amount") as [a|e].
  - apply Hkeep.
  - intros Hfail. eexists.
    destruct (ReduceTokenFailTxSpec.after_run setNodeToken
                (exec before (initial W w))) as [-> _].
    by rewrite (Hkeep _ Hfail).
Qed.

(** X21. The token check of the test file (the third and the fifth test)
    makes the one call [getToken('idp1')], and passes exactly when that
    call answers, the body can be decoded, the status is 200 and the
    [amount] of the body is the expected number. *)
Theorem it_token_after_passes (expected : Q) (s : state W) :
  (outcome (it_token_after expected) s = Return tt
   ↔ ∃ r w responseBody amount,
       getToken "idp1" (platform s) = (Return r, w)
       ∧ json r = Return responseBody
       ∧ strict_eq (status r) (VNum 200) = true
       ∧ get_prop responseBody "amount" = Return amount
       ∧ strict_eq amount (VNum expected) = true)
  ∧ log (exec (it_token_after expected) s) = log s ++ [GetToken "idp1"].
Proof.
  unfold outcome, exec, ReduceTokenFailTx.it_token_after, commonApi_getToken,
    api, mbind, M_bind, lift, expect_equal.
  split; [split|].
  - intros H.
    destruct (getToken "idp1" (platform s)) as [[r|e] w0]; simpl in H;
      [|discriminate].
    destruct (json r) as [responseBody|e] eqn:Ej; simpl in H; [|discriminate].
    destruct (strict_eq (status r) (VNum 200)) eqn:Es; simpl in H;
      [|discriminate].
    destruct (get_prop responseBody "amount") as [a|e] eqn:Ea; simpl in H;
      [|discriminate].
    destruct (strict_eq a (VNum expected)) eqn:Ex; simpl in H;
      [|discriminate].
    by exists r, w0, responseBody, a.
  - intros (r & w & responseBody & a & Hg & Hj & Hs & Ha & Hx).
    rewrite Hg. simpl. rewrite Hj. simpl. rewrite Hs. simpl.
    rewrite Ha. simpl. by rewrite Hx.
  - destruct (getToken "idp1" (platform s)) as [[r|e] w0]; simpl; [|done].
    destruct (json r) as [responseBody|e]; simpl; [|done].
    destruct (strict_eq (status r) (VNum 200)); simpl; [|done].
    destruct (get_prop responseBody "amount") as [a|e]; simpl; [|done].
    by destruct (strict_eq a (VNum expected)).
Qed.

Lemma flood_calls (n : nat) (tx : obj) (s : state W) :
  ∃ k, (k ≤ n)%nat
       ∧ log (exec (flood n tx) s) = log s ++ replicate k (Transact "idp1" tx)
       ∧ (outcome (flood n tx) s = Return tt → k = n).
Proof.
  revert s. induction n as [|n IH]; intros s.
  - exists 0%nat. split_and!; [lia| by rewrite app_nil_r |done].
  - simpl. unfold exec, outcome, mbind, M_bind, debugApi_transact, api.
    destruct (transact "idp1" tx (platform s)) as [[r|e] w]; simpl.
    + destruct (IH (State w (nodeTokenBeforeTest s)
                      (log s ++ [Transact "idp1" tx]))) as (k & Hk & Hlog & Hret).
      exists (S k). split_and!; [lia | | ].
      * unfold exec in Hlog. rewrite Hlog. simpl. by rewrite <- app_assoc.
      * intros H. f_equal. by apply Hret.
    + exists 1%nat. split_and!; [lia|done|discriminate].
Qed.

Lemma flood_completes (n : nat) (tx : obj) (s : state W) (w' : W) :
  answered n tx (platform s) = Some w' →
  flood n tx s
  = (Return tt,
     State w' (nodeTokenBeforeTest s)
       (log s ++ replicate n (Transact "idp1" tx))).
Proof.
  revert s. induction n as [|n IH]; intros s Hans.
  - injection Hans as <-. destruct s. simpl. by rewrite app_nil_r.
  - simpl in Hans. simpl.
    unfold mbind, M_bind, debugApi_transact, api.
    destruct (transact "idp1" tx (platform s)) as [[r|e] w1]; [|discriminate].
    simpl. rewrite (IH (State w1 _ _) Hans). simpl.
    by rewrite <- app_assoc.
Qed.

Lemma flood_stops (n k : nat) (tx : obj) (s : state W) (wk w' : W) (e : exn) :
  (k < n)%nat →
  answered k tx (platform s) = Some wk →
  transact "idp1" tx wk = (Throw e, w') →
  flood n tx s
  = (Throw e,
     State w' (nodeTokenBeforeTest s)
       (log s ++ replicate (S k) (Transact "idp1" tx))).
Proof.
  revert k s. induction n as [|n IH]; intros k s Hk Hans Hthrow; [lia|].
  simpl. unfold mbind, M_bind, debugApi_transact, api.
  destruct k as [|k].
  - injection Hans as <-. by rewrite Hthrow.
  - simpl in Hans.
    destruct (transact "idp1" tx (platform s)) as [[r|e1] w1]; [|discriminate].
    simpl. rewrite (IH k (State w1 _ _) ltac:(lia) Hans Hthrow). simpl.
    by rewrite <- app_assoc.
Qed.

(** X22. The transaction floods of the test file send the same
    transaction from idp1 again and again and nothing else: [n] rounds
    log at most [n] calls [transact('idp1', tx)], all equal, and exactly
    [n] when the flood completes, which it does whenever [transact]
    always answers.  A flood stops at the first call that throws: when the
    first [k] calls answer and the next one throws, the flood throws that
    exception, has made exactly these [k + 1] calls and leaves the
    platform as the throwing call left it; when all [n] calls answer, it
    returns with exactly [n] calls made. *)
Theorem flood_sends_n (n : nat) (tx : obj) (s : state W) :
  (∃ k, (k ≤ n)%nat
        ∧ log (exec (flood n tx) s)
          = log s ++ replicate k (Transact "idp1" tx)
        ∧ (outcome (flood n tx) s = Return tt → k = n))
  ∧ ((∀ nodeId data w, ∃ r w', transact nodeId data w = (Return r, w')) →
     outcome (flood n tx) s = Return tt
     ∧ log (exec (flood n tx) s) = log s ++ replicate n (Transact "idp1" tx))
  ∧ (∀ k wk w' e,
       (k < n)%nat →
       answered k tx (platform s) = Some wk →
       transact "idp1" tx wk = (Throw e, w') →
       flood n tx s
       = (Throw e,
          State w' (nodeTokenBeforeTest s)
            (log s ++ replicate (S k) (Transact "idp1" tx))))
  ∧ (∀ w',
       answered n tx (platform s) = Some w' →
       flood n tx s
       = (Return tt,
          State w' (nodeTokenBeforeTest s)
            (log s ++ replicate n (Transact "idp1" tx)))).
Proof.
  split_and!.
  - apply flood_calls.
  - intros Hanswers.
    assert (Hret : ∀ s0, outcome (flood n tx) s0 = Return tt).
    { induction n as [|m IH]; intros s0; [done|].
      simpl. unfold outcome, mbind, M_bind, debugApi_transact, api.
      destruct (Hanswers "idp1" tx (platform s0)) as (r & w' & ->). simpl.
      apply IH. }
    split; [apply Hret|].
    destruct (flood_calls n tx s) as (k & _ & Hlog & Hk).
    by rewrite Hlog, (Hk (Hret s)).
  - intros k wk w' e. apply flood_stops.
  - intros w'. apply flood_completes.
Qed.

(** On a platform that answers two transactions and then refuses, a flood
    of five sends three and throws. *)
Example flood_stops_at_third :
  ReduceTokenFailTx.flood nat
    (λ _ _ sentSoFar,
       if (sentSoFar <? 2)%nat
       then (Return (Response (VNum 204) (Return VUndefined)), S sentSoFar)
       else (Throw (Error "connect ECONNREFUSED"), S sentSoFar))
    5 (add_accessor_tx (VStr "Invalid key format")) (State 0%nat (VNum 0) [])
  = (Throw (Error "connect ECONNREFUSED"),
     State 3%nat (VNum 0)
       (replicate 3 (Transact "idp1"
                       (add_accessor_tx (VStr "Invalid key format"))))).
Proof. reflexivity. Qed.

(** Steps that only add calls about idp1 compose. *)
Lemma about_bind {A B} (m : M (state W) A) (f : A → M (state W) B) :
  calls_about_idp1 m → (∀ a, calls_about_idp1 (f a)) →
  calls_about_idp1 (m ≫= f).
Proof.
  intros Hm Hf s. unfold mbind, M_bind.
  destruct (Hm s) as (new1 & E1 & F1).
  destruct (m s) as [[a|e] s1]; simpl in *; [|by exists new1].
  destruct (Hf a s1) as (new2 & E2 & F2).
  exists (new1 ++ new2). split; [|by apply Forall_app].
  by rewrite E2, E1, app_assoc.
Qed.

Lemma about_api {A} (c : call) (m : M W A) :
  about_idp1 c → calls_about_idp1 (api W c m).
Proof.
  intros Hc s. exists [c]. unfold api.
  destruct (m (platform s)). simpl. split; [done|]. by constructor.
Qed.

Lemma about_silent {A} (m : M (state W) A) :
  (∀ s, log (snd (m s)) = log s) → calls_about_idp1 m.
Proof. intros H s. exists []. by rewrite app_nil_r, H. Qed.

Lemma about_expect_equal (a b : value) :
  calls_about_idp1 (W := W) (expect_equal a b).
Proof.
  apply about_silent. intros s. unfold expect_equal.
  by destruct (strict_eq a b).
Qed.

Lemma about_flood (n : nat) (v : value) :
  calls_about_idp1 (flood n (add_accessor_tx v)).
Proof.
  induction n as [|n IH]; [by apply about_silent|].
  simpl. apply about_bind; [by apply about_api | by intros _].
Qed.

Ltac about_steps :=
  repeat first
    [ apply about_bind; [|intros ?]
    | apply about_api; done
    | apply about_expect_equal
    | apply about_flood
    | apply about_silent; done ].

Lemma about_tests (t : M (state W) unit) : t ∈ tests → calls_about_idp1 t.
Proof.
  unfold ReduceTokenFailTx.tests.
  intros Hin. repeat (apply elem_of_cons in Hin as [->|Hin]).
  - unfold it_set_node_token, ndidApi_setNodeToken. about_steps.
  - unfold it_fail_tx_CheckTx. about_steps.
  - unfold ReduceTokenFailTx.it_token_after, commonApi_getToken. about_steps.
  - unfold it_fail_tx_DeliverTx. about_steps.
  - unfold ReduceTokenFailTx.it_token_after, commonApi_getToken. about_steps.
  - by apply elem_of_nil in Hin.
Qed.

Lemma about_run_tests (ts : list (M (state W) unit)) (s : state W) :
  (∀ t, t ∈ ts → calls_about_idp1 t) →
  ∃ new, log (run_tests W ts s) = log s ++ new ∧ Forall about_idp1 new.
Proof.
  revert s. induction ts as [|t ts IH]; intros s Hts.
  - exists []. by rewrite app_nil_r.
  - simpl. destruct (Hts t ltac:(set_solver) s) as (new1 & E1 & F1).
    destruct (IH (exec t s) ltac:(intros; apply Hts; set_solver))
      as (new2 & E2 & F2).
    exists (new1 ++ new2). split; [|by apply Forall_app].
    unfold exec in *. by rewrite E2, E1, app_assoc.
Qed.

(** X23. From its [before] hook to its [after] hook, whatever the
    platform answers and whichever tests fail, the reduce-token file only
    ever reads the token of idp1, sends transactions from idp1, and sets
    the token of idp1 through ndid1: no call concerns the token of another
    node, and the calls made before the file stay in the log. *)
Theorem file_calls_about_idp1 (s : state W) :
  ∃ new,
    log (exec after (run_tests W tests (exec before s))) = log s ++ new
    ∧ Forall about_idp1 new.
Proof.
  assert (Hb : calls_about_idp1 before).
  { unfold ReduceTokenFailTx.before, commonApi_getToken, skip, when_.
    destruct (negb (truthy ndidAvailable) || negb (truthy idp1Available));
      about_steps. }
  assert (Ha : calls_about_idp1 after).
  { unfold ReduceTokenFailTx.after, ndidApi_setNodeToken, set_token_params.
    about_steps. }
  destruct (Hb s) as (new1 & E1 & F1).
  destruct (about_run_tests tests (exec before s) about_tests)
    as (new2 & E2 & F2).
  destruct (Ha (run_tests W tests (exec before s))) as (new3 & E3 & F3).
  exists (new1 ++ new2 ++ new3). split; [|by rewrite !Forall_app].
  unfold exec in *. by rewrite E3, E2, E1, !app_assoc.
Qed.

End Suite.

End ReduceTokenMore.

(** ** The expected data request list *)

Module DataRequestListMore.
Import DataRequestList.

(** X24. [dataRequestListWithoutParams] keeps the requests and their
    order, removes [request_params] from each and changes no other key;
    applying it twice is applying it once, and a list in which no request
    has [request_params] comes back unchanged. *)
Theorem dataRequestListWithoutParams_strips (data_request_list : list obj) :
  length (dataRequestListWithoutParams data_request_list)
  = length data_request_list
  ∧ (∀ (i : nat) (dataRequest : obj),
       data_request_list !! i = Some dataRequest →
       ∃ stripped,
         dataRequestListWithoutParams data_request_list !! i = Some stripped
         ∧ stripped !! "request_params" = None
         ∧ ∀ k, k ≠ "request_params" → stripped !! k = dataRequest !! k)
  ∧ dataRequestListWithoutParams
      (dataRequestListWithoutParams data_request_list)
    = dataRequestListWithoutParams data_request_list
  ∧ ((∀ dataRequest, dataRequest ∈ data_request_list →
        dataRequest !! "request_params" = None) →
     dataRequestListWithoutParams data_request_list = data_request_list).
Proof.
  unfold dataRequestListWithoutParams. split_and!.
  - apply length_map.
  - intros i dataRequest Hi. exists (delete "request_params" dataRequest).
    split_and!.
    + by rewrite list_lookup_fmap, Hi.
    + apply lookup_delete_eq.
    + intros k Hk. by rewrite lookup_delete_ne.
  - rewrite List.map_map. apply List.map_ext. intros o.
    apply delete_id, lookup_delete_eq.
  - intros Hnone. induction data_request_list as [|o l IH]; [done|].
    simpl. rewrite delete_id by (apply Hnone; set_solver).
    f_equal. apply IH. intros; apply Hnone; set_solver.
Qed.

End DataRequestListMore.

(** ** Runs on concrete inputs *)

Module ExamplesMore.
Import Completion.
Import Stdlib.Strings.Ascii.

Example creation_block_height_shapes :
  BlockHeight.expect_creation_block_height (VStr "1:2475") = Return tt
  ∧ BlockHeight.expect_creation_block_height (VStr "2475")
    = Throw (AssertionError "expected array to have the given length")
  ∧ BlockHeight.expect_creation_block_height (VStr "1:2:3")
    = Throw (AssertionError "expected array to have the given length")
  ∧ BlockHeight.expect_creation_block_height (VStr ":2475")
    = Throw (AssertionError "expected string to have a length at least n")
  ∧ BlockHeight.expect_creation_block_height (VNum 2475)
    = Throw (AssertionError "expected value to be a string").
Proof. split_and!; reflexivity. Qed.

Example split_pieces :
  BlockHeight.split ":"%char "a:b::c" = ["a"; "b"; ""; "c"]
  ∧ BlockHeight.split ":"%char "" = [""].
Proof. split; reflexivity. Qed.

(** The first identity of mode 3 is taken, and one without
    [referenceGroupCode] answers a call that gives none, although its
    namespace differs. *)
Example lookups_on_a_small_db :
  let db :=
    [ VObj (<[ "namespace" := VStr "citizen_id" ]>
            (<[ "identifier" := VStr "1" ]>
            (<[ "mode" := VNum 2 ]>
             {[ "accessors" := VArr [VObj {[ "accessorId" := VStr "acc-1" ]}] ]})));
      VObj (<[ "namespace" := VStr "citizen_id" ]>
            (<[ "identifier" := VStr "2" ]>
            (<[ "mode" := VNum 3 ]>
             {[ "accessors" := VArr [VObj {[ "accessorId" := VStr "acc-2" ]}] ]}))) ] in
  (∃ o, FlowParams.getIdentityForRequest db = Return (VObj o)
        ∧ o !! "identifier" = Some (VStr "2"))
  ∧ FlowParams.getAccessorForResponse db
      (<[ "namespace" := VStr "passport" ]> {[ "identifier" := VStr "9" ]})
    = Return (VStr "acc-1")
  ∧ FlowParams.getAccessorForResponse db
      (<[ "namespace" := VStr "citizen_id" ]>
       (<[ "identifier" := VStr "2" ]>
        {[ "referenceGroupCode" := VStr "group-7" ]}))
    = Return (VStr "acc-2").
Proof.
  cbv zeta. split_and!.
  - eexists. split; [vm_compute; reflexivity|]. vm_compute. reflexivity.
  - vm_compute. reflexivity.
  - vm_compute. reflexivity.
Qed.

End ExamplesMore.

(** ** The properties above at concrete inputs *)

Module WitnessesMore.

Lemma before_registers_witness :
  listeners
    (exec (SecondIdp.before (VStr "ref-2") (VStr "ref-1") (VBool true)
             [VObj ∅] (λ l, l))
       (Server (λ _, ∅) VUndefined))
    idp2EventEmitter "accessor_sign_callback"
  = [SecondIdp.idp2_accessor_sign_callback (VStr "ref-2")].
Proof.
  exact (proj2
    (proj1 (proj2 (proj2 (proj2 HooksMore.before_registers)))
       (VStr "ref-2") (VStr "ref-1") (VBool true) [VObj ∅] (λ l, l)
       eq_refl eq_refl (Server (λ _, ∅) VUndefined))
    idp2EventEmitter "accessor_sign_callback").
Defined.

Lemma before_guard_fails_witness :
  TooLargeAsData.before (VStr "ref-rp") (VStr "ref-idp") (VStr "ref-as")
    (VStr "00ff") [] (λ l, l) (Server (λ _, ∅) VUndefined)
  = (Throw (Error "No created identity to use"), Server (λ _, ∅) VUndefined).
Proof.
  exact (proj1 (proj2
    (HooksMore.before_guard_fails (Server (λ _, ∅) VUndefined)))
    (VStr "ref-rp") (VStr "ref-idp") (VStr "ref-as") (VStr "00ff") []
    (λ l, l) eq_refl).
Defined.

Lemma before_after_restores_witness :
  tables
    (exec EnableNamespace.after
       (exec (EnableNamespace.before (VStr "ref") (λ l, l))
          (Server (λ _, ∅) VUndefined)))
    idp1EventEmitter
  = ∅.
Proof.
  exact (proj2 (proj2 (proj2 (proj2 HooksMore.before_after_restores)))
    (VStr "ref") (λ l, l) (Server (λ _, ∅) VUndefined)
    (λ e name _, lookup_empty name) idp1EventEmitter).
Defined.

Lemma unrelated_callbacks_ignored_witness :
  EnableNamespace.idp1_callback (VStr "ref-mine")
    (<[ "type" := VStr "create_identity_result" ]>
       {[ "reference_id" := VStr "ref-other" ]})
    (EnableNamespace.State [])
  = (Return tt, EnableNamespace.State []).
Proof.
  apply (proj2 (proj2 (proj2 (proj2
    (IsolationMore.unrelated_callbacks_ignored
       (<[ "type" := VStr "create_identity_result" ]>
          {[ "reference_id" := VStr "ref-other" ]})))))
    (VStr "ref-mine") (EnableNamespace.State [])).
  - reflexivity.
  - apply list_elem_of_here.
Defined.

Lemma getAccessorForResponse_selects_witness :
  FlowParams.getAccessorForResponse []
    {[ "namespace" := VStr "citizen_id" ]}
  = Throw (TypeError (cannot_read "accessors" "undefined")).
Proof.
  apply (proj2 (proj2 (proj2 (proj2
    (FlowParamsMore.getAccessorForResponse_selects []
       {[ "namespace" := VStr "citizen_id" ]}))))).
  intros x Hx. by apply elem_of_nil in Hx.
Defined.

Lemma before_incomplete_records_nothing_witness :
  ReduceTokenFailTx.before _ ReduceTokenFailTx.Ledger.getToken
    (VBool false) (VBool true)
    (ReduceTokenFailTx.initial _ ReduceTokenFailTx.Ledger.world)
  = (Throw (Pending "sync skip"),
     ReduceTokenFailTx.initial _ ReduceTokenFailTx.Ledger.world).
Proof.
  apply (proj1
    (ReduceTokenMore.before_incomplete_records_nothing
       ReduceTokenFailTx.Ledger.getToken ReduceTokenFailTx.Ledger.setNodeToken
       (VBool false) (VBool true)
       (ReduceTokenFailTx.initial _ ReduceTokenFailTx.Ledger.world)
       ReduceTokenFailTx.Ledger.world)).
  left. reflexivity.
Defined.

Lemma flood_sends_n_witness :
  length
    (ReduceTokenFailTx.log
       (exec (ReduceTokenFailTx.flood _ ReduceTokenFailTx.Ledger.transact 5
                (ReduceTokenFailTx.add_accessor_tx (VStr "Invalid key format")))
          (ReduceTokenFailTx.initial _ ReduceTokenFailTx.Ledger.world)))
  = 5%nat.
Proof.
  rewrite (proj2 (proj1 (proj2
    (ReduceTokenMore.flood_sends_n ReduceTokenFailTx.Ledger.transact 5
       (ReduceTokenFailTx.add_accessor_tx (VStr "Invalid key format"))
       (ReduceTokenFailTx.initial _ ReduceTokenFailTx.Ledger.world)))
    (λ nodeId data w, ex_intro _ _ (ex_intro _ _ eq_refl)))).
  reflexivity.
Defined.

Lemma dataRequestListWithoutParams_strips_witness :
  DataRequestList.dataRequestListWithoutParams
    [ {[ "service_id" := VStr "bank_statement" ]} ]
  = [ {[ "service_id" := VStr "bank_statement" ]} ].
Proof.
  apply (proj2 (proj2 (proj2
    (DataRequestListMore.dataRequestListWithoutParams_strips
       [ {[ "service_id" := VStr "bank_statement" ]} ])))).
  intros o Ho. apply list_elem_of_singleton in Ho as ->. reflexivity.
Defined.

End WitnessesMore.
